(** * Beam property model and exhaustive beam search

    A shallow embedding of [beams.py] (the [Material] and [Beam] classes
    with the three cross-section variants) and of the three search
    routines of [part2.py].

    Numbers.  The code is read twice.  In this first reading, Python
    [int]/[float] values and [numpy.float64] values are numbers with
    exact rational arithmetic: rounding and overflow are left out.
    What is kept of IEEE arithmetic is its special values ([inf],
    [-inf], [nan]), because a division by zero between numpy scalars
    yields one of them where the same division between Python scalars
    raises [ZeroDivisionError].  Zero carries no sign: a zero divisor
    counts as [+0.0].  This reading serves the properties that the
    control flow and the order of the numbers decide.  The second
    reading, [Objects] and [Binary64] further down, keeps the objects
    abstract and then takes them as IEEE 754 doubles; it serves the
    properties that rounding, overflow or a value that is no number
    decide. *)

From Stdlib Require Import QArith Qround Lqa ZArith Lia List Bool String Permutation.
From Stdlib Require Floats.
Import ListNotations.
Open Scope Q_scope.

(** ** Exceptions and results *)

Inductive exn : Type :=
  | AttributeError
  | TypeError
  | ZeroDivisionError.

Inductive result (A : Type) : Type :=
  | Ok (a : A)
  | Raise (e : exn).
Arguments Ok {A} a.
Arguments Raise {A} e.

Definition bind {A B : Type} (r : result A) (k : A -> result B) : result B :=
  match r with
  | Ok a => k a
  | Raise e => Raise e
  end.

Notation "x <- r ;; k" := (bind r (fun x => k))
  (at level 61, r at next level, right associativity).

(** ** Numbers *)

(** An IEEE-like extended number with an exact finite part. *)
Inductive xnum : Type :=
  | Fin (q : Q)
  | PInf
  | NInf
  | NaN.

(** Which implementation owns a number: a Python [int]/[float], or a
    [numpy.float64] (what [np.arange] and the material table yield). *)
Inductive kind : Type := Py | Np.

(** A binary operation with a numpy operand is carried out by numpy and
    gives a numpy scalar. *)
Definition kjoin (k1 k2 : kind) : kind :=
  match k1, k2 with
  | Py, Py => Py
  | _, _ => Np
  end.

Definition Qltb (p q : Q) : bool :=
  match p ?= q with Lt => true | _ => false end.

Definition Qis0 (q : Q) : bool := Qeq_bool q 0.

Definition xneg (a : xnum) : xnum :=
  match a with
  | Fin q => Fin (- q)
  | PInf => NInf
  | NInf => PInf
  | NaN => NaN
  end.

Definition xadd (a b : xnum) : xnum :=
  match a, b with
  | NaN, _ | _, NaN => NaN
  | Fin p, Fin q => Fin (p + q)
  | PInf, NInf | NInf, PInf => NaN
  | PInf, _ | _, PInf => PInf
  | NInf, _ | _, NInf => NInf
  end.

Definition xsub (a b : xnum) : xnum := xadd a (xneg b).

(** [inf] times a finite number: the sign of the number decides, and
    [inf * 0] is [nan]. *)
Definition xscale_inf (pos : bool) (q : Q) : xnum :=
  match q ?= 0 with
  | Eq => NaN
  | Gt => if pos then PInf else NInf
  | Lt => if pos then NInf else PInf
  end.

Definition xmul (a b : xnum) : xnum :=
  match a, b with
  | NaN, _ | _, NaN => NaN
  | Fin p, Fin q => Fin (p * q)
  | PInf, Fin q | Fin q, PInf => xscale_inf true q
  | NInf, Fin q | Fin q, NInf => xscale_inf false q
  | PInf, PInf | NInf, NInf => PInf
  | PInf, NInf | NInf, PInf => NInf
  end.

(** IEEE division.  A finite number over zero is an infinity of the sign
    of the numerator, [0/0] is [nan]. *)
Definition xdiv (a b : xnum) : xnum :=
  match a, b with
  | NaN, _ | _, NaN => NaN
  | Fin p, Fin q =>
      if Qis0 q then
        match p ?= 0 with Eq => NaN | Gt => PInf | Lt => NInf end
      else Fin (p / q)
  | Fin _, PInf | Fin _, NInf => Fin 0
  | PInf, Fin q => if Qltb q 0 then NInf else PInf
  | NInf, Fin q => if Qltb q 0 then PInf else NInf
  | _, _ => NaN
  end.

(** [x ** n] for a literal exponent [n]. *)
Fixpoint xpow (a : xnum) (n : nat) : xnum :=
  match n with
  | O => Fin 1
  | S O => a
  | S n' => xmul a (xpow a n')
  end.

Definition xltb (a b : xnum) : bool :=
  match a, b with
  | NaN, _ | _, NaN => false
  | Fin p, Fin q => Qltb p q
  | NInf, NInf => false
  | NInf, _ => true
  | _, NInf => false
  | PInf, _ => false
  | _, PInf => true
  end.

Definition xeqb (a b : xnum) : bool :=
  match a, b with
  | Fin p, Fin q => Qeq_bool p q
  | PInf, PInf | NInf, NInf => true
  | _, _ => false
  end.

Definition xleb (a b : xnum) : bool := xltb a b || xeqb a b.

Definition xis0 (a : xnum) : bool :=
  match a with Fin q => Qis0 q | _ => false end.

(** ** Python values *)

(** The values an attribute of a material or of a beam holds here:
    [None] or a number. *)
Inductive value : Type :=
  | VNone
  | VNum (k : kind) (x : xnum).

Definition py_int (z : Z) : value := VNum Py (Fin (inject_Z z)).

Definition arith (f : xnum -> xnum -> xnum) (a b : value) : result value :=
  match a, b with
  | VNum k1 x, VNum k2 y => Ok (VNum (kjoin k1 k2) (f x y))
  | _, _ => Raise TypeError
  end.

Definition v_add : value -> value -> result value := arith xadd.
Definition v_sub : value -> value -> result value := arith xsub.
Definition v_mul : value -> value -> result value := arith xmul.

(** [a / b]: between two Python scalars a zero divisor raises; with a
    numpy operand the division is numpy's and returns [inf] or [nan]. *)
Definition v_div (a b : value) : result value :=
  match a, b with
  | VNum Py x, VNum Py y =>
      if xis0 y then Raise ZeroDivisionError else Ok (VNum Py (xdiv x y))
  | VNum k1 x, VNum k2 y => Ok (VNum (kjoin k1 k2) (xdiv x y))
  | _, _ => Raise TypeError
  end.

(** [a ** n] with [n] an integer literal. *)
Definition v_pow (a : value) (n : nat) : result value :=
  match a with
  | VNum k x => Ok (VNum k (xpow x n))
  | VNone => Raise TypeError
  end.

Definition compare_with (f : xnum -> xnum -> bool) (a b : value) : result bool :=
  match a, b with
  | VNum _ x, VNum _ y => Ok (f x y)
  | _, _ => Raise TypeError
  end.

Definition v_lt : value -> value -> result bool := compare_with xltb.
Definition v_le : value -> value -> result bool := compare_with xleb.
Definition v_gt (a b : value) : result bool := v_lt b a.
Definition v_ge (a b : value) : result bool := v_le b a.

(** [a == b] never raises. *)
Definition v_eq (a b : value) : bool :=
  match a, b with
  | VNone, VNone => true
  | VNum _ x, VNum _ y => xeqb x y
  | _, _ => false
  end.

(** The builtin [min(a, b)]: [b] when [b < a], otherwise [a]. *)
Definition py_min (a b : value) : result value :=
  lt <- v_lt b a ;;
  Ok (if lt then b else a).

(** [try: ... except (AttributeError, TypeError): return None]. *)
Definition or_none (r : result value) : result value :=
  match r with
  | Raise AttributeError | Raise TypeError => Ok VNone
  | other => other
  end.

(** Reading an attribute that an instance may lack. *)
Definition getattr (a : option value) : result value :=
  match a with
  | Some v => Ok v
  | None => Raise AttributeError
  end.

(** Operators on results, evaluating the left operand first as Python
    does. *)
Definition bin (op : value -> value -> result value)
    (ra rb : result value) : result value :=
  a <- ra ;; b <- rb ;; op a b.

Declare Scope py_scope.
Delimit Scope py_scope with py.
Notation "a [+] b" := (bin v_add a b) (at level 50, left associativity) : py_scope.
Notation "a [-] b" := (bin v_sub a b) (at level 50, left associativity) : py_scope.
Notation "a [*] b" := (bin v_mul a b) (at level 40, left associativity) : py_scope.
Notation "a [/] b" := (bin v_div a b) (at level 40, left associativity) : py_scope.
Notation "a [^] n" := (bind a (fun v => v_pow v n)) (at level 30, right associativity) : py_scope.
(** An integer literal. *)
Definition lit (z : Z) : result value := Ok (py_int z).
Open Scope py_scope.

(** [math.pi], the double nearest to pi, as the rational it is. *)
Definition math_pi : value := VNum Py (Fin (884279719003555 # 281474976710656)).

(** ** beams.py *)

(** Cost of electricity in [$/J] (converted from [$/kWh]). *)
Definition ELECTRICITY_COST : value :=
  VNum Py (Fin ((314 # 1000) / 1000 / 3600)).

Record Material : Type := mkMaterial {
  name : string;
  yield_stress : value;
  modulus : value;
  elongation : value;
  density : value;
  price : value;
  energy_density : value
}.

Definition electricity_cost (_ : Material) : value := ELECTRICITY_COST.

(** A beam is an instance of one of the three cross-section classes, or
    an instance of [Beam] itself (or of a further subclass) on which
    [length], [area] and the two second moments of area are plain
    attributes that may or may not have been set. *)
Inductive Beam : Type :=
  | GenericBeam (material : Material)
      (length area second_moment_of_area_xx second_moment_of_area_yy : option value)
  | RHSBeam (material : Material) (length b h t : value)
  | CHSBeam (material : Material) (length r t : value)
  | IBeam (material : Material) (length b h tw tf : value).

Definition material (self : Beam) : Material :=
  match self with
  | GenericBeam m _ _ _ _ | RHSBeam m _ _ _ _ | CHSBeam m _ _ _ | IBeam m _ _ _ _ _ => m
  end.

Definition length (self : Beam) : result value :=
  match self with
  | GenericBeam _ l _ _ _ => getattr l
  | RHSBeam _ l _ _ _ | CHSBeam _ l _ _ | IBeam _ l _ _ _ _ => Ok l
  end.

Definition area (self : Beam) : result value :=
  match self with
  | GenericBeam _ _ a _ _ => getattr a
  | RHSBeam _ _ b h t =>
      Ok b [*] Ok h [-] (Ok b [-] lit 2 [*] Ok t) [*] (Ok h [-] lit 2 [*] Ok t)
  | CHSBeam _ _ r t =>
      (* Simplified calcuation for area of CHS *)
      Ok math_pi [*] (lit 2 [*] Ok r [*] Ok t [-] Ok t [^] 2)
  | IBeam _ _ b h tw tf =>
      a_flanges <- lit 2 [*] Ok b [*] Ok tf ;;
      a_web <- Ok tw [*] (Ok h [-] lit 2 [*] Ok tf) ;;
      Ok a_flanges [+] Ok a_web
  end.

Definition second_moment_of_area_xx (self : Beam) : result value :=
  match self with
  | GenericBeam _ _ _ ixx _ => getattr ixx
  | RHSBeam _ _ b h t =>
      I_big <- Ok b [*] Ok h [^] 3 [/] lit 12 ;;
      I_small <- (Ok b [-] lit 2 [*] Ok t) [*] (Ok h [-] lit 2 [*] Ok t) [^] 3 [/] lit 12 ;;
      Ok I_big [-] Ok I_small
  | CHSBeam _ _ r t =>
      Ok math_pi [/] lit 4 [*] (Ok r [^] 4 [-] (Ok r [-] Ok t) [^] 4)
  | IBeam _ _ b h tw tf =>
      (* the I-beam as a large rectangle minus two rectangles either side *)
      I_big <- Ok b [*] Ok h [^] 3 [/] lit 12 ;;
      b_small <- (Ok b [-] Ok tw) [/] lit 2 ;;
      h_small <- Ok h [-] lit 2 [*] Ok tf ;;
      I_small <- Ok b_small [*] Ok h_small [^] 3 [/] lit 12 ;;
      Ok I_big [-] lit 2 [*] Ok I_small
  end.

Definition second_moment_of_area_yy (self : Beam) : result value :=
  match self with
  | GenericBeam _ _ _ _ iyy => getattr iyy
  | RHSBeam _ _ b h t =>
      I_big <- Ok h [*] Ok b [^] 3 [/] lit 12 ;;
      I_small <- (Ok h [-] lit 2 [*] Ok t) [*] (Ok b [-] lit 2 [*] Ok t) [^] 3 [/] lit 12 ;;
      Ok I_big [-] Ok I_small
  | CHSBeam _ _ _ _ =>
      (* By symmetry *)
      second_moment_of_area_xx self
  | IBeam _ _ b h tw tf =>
      (* the two flanges plus the web *)
      I_flange <- Ok tf [*] Ok b [^] 3 [/] lit 12 ;;
      I_web <- (Ok h [-] lit 2 [*] Ok tf) [*] Ok tw [^] 3 [/] lit 12 ;;
      lit 2 [*] Ok I_flange [+] Ok I_web
  end.

(** The derived properties of the base class.  Caching a property does
    not change its value, since no attribute is reassigned. *)

Definition volume (self : Beam) : result value :=
  or_none (area self [*] length self).

Definition mass (self : Beam) : result value :=
  or_none (volume self [*] Ok (density (material self))).

Definition cost (self : Beam) : result value :=
  or_none (mass self [*] Ok (price (material self))).

Definition total_embodied_energy (self : Beam) : result value :=
  or_none (mass self [*] Ok (energy_density (material self))).

Definition embodied_energy_cost (self : Beam) : result value :=
  or_none (total_embodied_energy self [*] Ok (electricity_cost (material self))).

Definition total_cost (self : Beam) : result value :=
  or_none (cost self [+] embodied_energy_cost self).

Definition buckling_load (self : Beam) : result value :=
  or_none (
    min_I <- (ixx <- second_moment_of_area_xx self ;;
              iyy <- second_moment_of_area_yy self ;;
              py_min ixx iyy) ;;
    (* Assume pin-pin connection (i.e. effective length = 1 * length) *)
    Ok math_pi [^] 2 [*] Ok (modulus (material self)) [*] Ok min_I
      [/] length self [^] 2).

Definition squash_load (self : Beam) : result value :=
  or_none (Ok (yield_stress (material self)) [*] area self).

Definition get_strain (self : Beam) (loading : value) : result value :=
  or_none (
    stress <- Ok loading [/] area self ;;
    Ok stress [/] Ok (modulus (material self))).

(** [is_sufficient] returns [True], [False] or [None]. *)
Definition is_sufficient (self : Beam) (loading : value) : result (option bool) :=
  match
    strain <- get_strain self loading ;;
    sq <- squash_load self ;;
    c1 <- v_ge sq loading ;;
    if c1 then
      bk <- buckling_load self ;;
      c2 <- v_ge bk loading ;;
      if c2 then
        c3 <- v_le strain (elongation (material self)) ;;
        Ok (Some c3)
      else Ok (Some false)
    else Ok (Some false)
  with
  | Raise AttributeError | Raise TypeError => Ok None
  | other => other
  end.

(** Truth value of what [is_sufficient] returns. *)
Definition truthy (r : option bool) : bool :=
  match r with
  | Some true => true
  | _ => false
  end.

Definition get_new_best_beam (self : Beam) (loading : value)
    (curr_best_beam : option Beam) : result (option Beam) :=
  s <- is_sufficient self loading ;;
  if truthy s then
    (* Make sure we have a best beam to "compare" with at start *)
    let curr_best_beam := match curr_best_beam with
                          | None => self
                          | Some c => c
                          end in
    a <- area self ;;
    ca <- area curr_best_beam ;;
    smaller <- v_lt a ca ;;
    if smaller then
      (* the source assigns [self] to a local [best_beam] here and then
         returns [curr_best_beam] *)
      Ok (Some curr_best_beam)
    else if v_eq a ca then
      Ix <- second_moment_of_area_xx self ;;
      best_Ix <- second_moment_of_area_xx curr_best_beam ;;
      Iy <- second_moment_of_area_yy self ;;
      best_Iy <- second_moment_of_area_yy curr_best_beam ;;
      gx <- v_gt Ix best_Ix ;;
      if gx then
        gy <- v_gt Iy best_Iy ;;
        Ok (Some (if gy then self else curr_best_beam))
      else Ok (Some curr_best_beam)
    else Ok (Some curr_best_beam)
  else Ok curr_best_beam.

(** ** part2.py *)

Module Part2.

(** SI prefixes. *)
Definition MILLI : Q := 1 # 1000.
Definition KILO : Q := 1000.

(** Variables related to shape/loading of beam. *)
Definition length : value := VNum Py (Fin (2000 * MILLI)).   (* [m] *)
Definition loading : value := VNum Py (Fin (24 * KILO)).     (* [N] *)
Definition max_breadth : Q := 30 * MILLI.                    (* [m] *)
Definition max_height : Q := 100 * MILLI.                    (* [m] *)

(** The "step-size" for each dimension of every beam. *)
Definition step_size : Q := 1 * MILLI.                       (* [m] *)

(** [np.arange(start, stop, step)]: the [ceil((stop - start) / step)]
    values [start + i * step]. *)
Definition arange (start stop step : Q) : list Q :=
  map (fun i => start + inject_Z (Z.of_nat i) * step)
      (seq 0 (Z.to_nat (Qceiling ((stop - start) / step)))).

(** The elements of an [arange] are numpy scalars. *)
Definition np (q : Q) : value := VNum Np (Fin q).

(** [min(b, h)] on two grid values. *)
Definition min_dim (b h : Q) : Q := if Qltb h b then h else b.

(** A [for] loop that rebinds one variable and lets exceptions escape. *)
Fixpoint for_each {A S : Type} (l : list A) (body : A -> S -> result S)
    (s : S) : result S :=
  match l with
  | [] => Ok s
  | a :: l' => s' <- body a s ;; for_each l' body s'
  end.

Definition get_best_I_beam (material : Material) : result (option Beam) :=
  for_each (arange step_size (max_breadth + step_size) step_size) (fun b =>
    for_each (arange step_size (max_height + step_size) step_size) (fun h =>
      for_each (arange step_size (b + step_size) step_size) (fun tw =>
        for_each (arange step_size (h / 2 + step_size) step_size) (fun tf best_I_beam =>
          get_new_best_beam (IBeam material length (np b) (np h) (np tw) (np tf))
            loading best_I_beam))))
    None.

(** The wall thicknesses tried for a breadth and a height. *)
Definition RHS_thicknesses (b h : Q) : list Q :=
  (* Walls' thickness is constrained by overall breadth/height of beam *)
  let min_dimension := min_dim b h in
  arange step_size (min_dimension / 2 + step_size) step_size.

Definition get_best_RHS_beam (material : Material) : result (option Beam) :=
  for_each (arange step_size (max_breadth + step_size) step_size) (fun b =>
    for_each (arange step_size (max_height + step_size) step_size) (fun h =>
      for_each (RHS_thicknesses b h) (fun t best_RHS_beam =>
        get_new_best_beam (RHSBeam material length (np b) (np h) (np t))
          loading best_RHS_beam)))
    None.

Definition get_best_CHS_beam (material : Material) : result (option Beam) :=
  let min_dimension := min_dim max_breadth max_height in
  (* Restrict to minimum dimensions (should be 30mm). *)
  for_each (arange step_size (min_dimension / 2 + step_size) step_size) (fun r =>
    for_each (arange step_size (r + step_size) step_size) (fun t best_CHS_beam =>
      get_new_best_beam (CHSBeam material length (np r) (np t))
        loading best_CHS_beam))
    None.

End Part2.

(** ** Vocabulary of the statements *)

(** The number a computation returned, when it returned one. *)
Definition num_of (r : result value) : option xnum :=
  match r with
  | Ok (VNum _ x) => Some x
  | _ => None
  end.

Definition sufficient (self : Beam) (loading : value) : Prop :=
  is_sufficient self loading = Ok (Some true).

(** Only a division raises [ZeroDivisionError]. *)
Definition no_zde {A : Type} (r : result A) : Prop := r <> Raise ZeroDivisionError.

(** What a search holds in its [best_..._beam] variable: nothing, or a
    beam that is sufficient under the load. *)
Definition selected (loading : value) (best : option Beam) : Prop :=
  forall c, best = Some c -> sufficient c loading.

(** The outcome the claim asks of a search: it returns, and what it
    returns is no beam or a sufficient one, whose squash load and
    buckling load are not below the load. *)
Definition returns_sufficient (loading : value) (r : result (option Beam)) : Prop :=
  exists best, r = Ok best /\
    match best with
    | None => True
    | Some beam =>
        is_sufficient beam loading = Ok (Some true) /\
        exists sq bk,
          squash_load beam = Ok sq /\ v_lt sq loading = Ok false /\
          buckling_load beam = Ok bk /\ v_lt bk loading = Ok false
    end.

(** The pairwise reduction of a collection of beams with
    [get_new_best_beam], seeded with no incumbent, as each search does
    over its grid. *)
Definition reduce_best (loading : value) (beams : list Beam) : result (option Beam) :=
  Part2.for_each beams
    (fun candidate incumbent => get_new_best_beam candidate loading incumbent) None.

(** The exact area of an annulus of outer radius [r] and wall thickness
    [t], [pi * (r**2 - (r - t)**2)], as the specification writes it; the
    source has no such expression. *)
Definition exact_annulus_area (r t : value) : result value :=
  Ok math_pi [*] (Ok r [^] 2 [-] (Ok r [-] Ok t) [^] 2).

(** ** Concrete beams *)

Module Examples.

Definition pyfloat (q : Q) : value := VNum Py (Fin q).

(** Structural steel, in SI units. *)
Definition steel : Material :=
  mkMaterial "steel" (pyfloat 250000000) (pyfloat 200000000000)
    (pyfloat (21 # 100)) (pyfloat 7850) (pyfloat (4 # 5)) (pyfloat 25000000).

Definition load_24kN : value := py_int 24000.

(** Hollow rectangles 2 m long: 30 x 100 mm with 3 mm and 4 mm walls,
    and 100 x 30 mm with 3 mm walls. *)
Definition rhs_30x100x3 : Beam :=
  RHSBeam steel (pyfloat 2) (pyfloat (3 # 100)) (pyfloat (1 # 10)) (pyfloat (3 # 1000)).
Definition rhs_30x100x4 : Beam :=
  RHSBeam steel (pyfloat 2) (pyfloat (3 # 100)) (pyfloat (1 # 10)) (pyfloat (4 # 1000)).
Definition rhs_100x30x3 : Beam :=
  RHSBeam steel (pyfloat 2) (pyfloat (1 # 10)) (pyfloat (3 # 100)) (pyfloat (3 # 1000)).

(** Two instances of the base class with the section properties set by
    hand: equal areas, the first stiffer about both axes. *)
Definition stiff_section : Beam :=
  GenericBeam steel (Some (pyfloat 2)) (Some (pyfloat (1 # 1000)))
    (Some (pyfloat (2 # 1000000))) (Some (pyfloat (2 # 1000000))).
Definition soft_section : Beam :=
  GenericBeam steel (Some (pyfloat 2)) (Some (pyfloat (1 # 1000)))
    (Some (pyfloat (1 # 1000000))) (Some (pyfloat (1 # 1000000))).

(** An instance of the base class with a small area and no second
    moments of area. *)
Definition thin_section : Beam :=
  GenericBeam steel (Some (pyfloat 2)) (Some (pyfloat (1 # 1000000))) None None.

(** The same steel as a row of the material table holds it: numpy
    scalars. *)
Definition steel_table : Material :=
  mkMaterial "steel" (Part2.np 250000000) (Part2.np 200000000000)
    (Part2.np (21 # 100)) (Part2.np 7850) (Part2.np (4 # 5)) (Part2.np 25000000).

(** A hollow rectangle 2 m long with Python integer dimensions
    [b = h = t = 1], whose area is [1*1 - (1 - 2)*(1 - 2) = 0]. *)
Definition rhs_1x1x1 : Beam :=
  RHSBeam steel (pyfloat 2) (py_int 1) (py_int 1) (py_int 1).

(** The first value of every grid of the searches. *)
Definition first_step : Q := Part2.step_size + inject_Z 0 * Part2.step_size.

(** The first beam the hollow-rectangle search builds. *)
Definition first_rhs_of_search : Beam :=
  RHSBeam steel_table Part2.length
    (Part2.np first_step) (Part2.np first_step) (Part2.np first_step).

End Examples.

(** [x.area < y.area]. *)
Definition area_lt (x y : Beam) : result bool :=
  a <- area x ;; a' <- area y ;; v_lt a a'.

(** ** More vocabulary *)

(** The beams a search builds, in the order of its nested loops. *)
Definition I_grid (material : Material) : list Beam :=
  flat_map (fun b =>
    flat_map (fun h =>
      flat_map (fun tw =>
        map (fun tf =>
               IBeam material Part2.length (Part2.np b) (Part2.np h)
                 (Part2.np tw) (Part2.np tf))
            (Part2.arange Part2.step_size (h / 2 + Part2.step_size) Part2.step_size))
        (Part2.arange Part2.step_size (b + Part2.step_size) Part2.step_size))
      (Part2.arange Part2.step_size (Part2.max_height + Part2.step_size)
         Part2.step_size))
    (Part2.arange Part2.step_size (Part2.max_breadth + Part2.step_size)
       Part2.step_size).

Definition RHS_grid (material : Material) : list Beam :=
  flat_map (fun b =>
    flat_map (fun h =>
      map (fun t =>
             RHSBeam material Part2.length (Part2.np b) (Part2.np h) (Part2.np t))
          (Part2.RHS_thicknesses b h))
      (Part2.arange Part2.step_size (Part2.max_height + Part2.step_size)
         Part2.step_size))
    (Part2.arange Part2.step_size (Part2.max_breadth + Part2.step_size)
       Part2.step_size).

Definition CHS_grid (material : Material) : list Beam :=
  flat_map (fun r =>
    map (fun t => CHSBeam material Part2.length (Part2.np r) (Part2.np t))
        (Part2.arange Part2.step_size (r + Part2.step_size) Part2.step_size))
    (Part2.arange Part2.step_size
       (Part2.min_dim Part2.max_breadth Part2.max_height / 2 + Part2.step_size)
       Part2.step_size).

(** Whether [is_sufficient] returned [True]. *)
Definition is_sufficient_true (loading : value) (self : Beam) : bool :=
  match is_sufficient self loading with
  | Ok s => truthy s
  | Raise _ => false
  end.

(** The first beam of a list that is sufficient. *)
Definition first_sufficient (loading : value) (beams : list Beam) : option Beam :=
  find (is_sufficient_true loading) beams.

(** Two beams with numeric areas that compare equal with [==]. *)
Definition same_area (x y : Beam) : Prop :=
  exists a a', num_of (area x) = Some a /\ num_of (area y) = Some a' /\
               xeqb a a' = true.

(** ** part2.py, the driver *)

Module Driver.

Definition MILLI : value := VNum Py (Fin Part2.MILLI).
Definition KILO : value := py_int 1000.
Definition MEGA : value := py_int 1000000.
Definition GIGA : value := py_int 1000000000.

(** A row of the material table once cast to floats: the six columns
    after the name. *)
Record table_row : Type := mkRow {
  row_name : string;
  row_yield_stress : xnum;    (* [MPa] *)
  row_modulus : xnum;         (* [GPa] *)
  row_elongation : xnum;      (* [%] *)
  row_density : xnum;         (* [tonnes/m^3] *)
  row_price : xnum;           (* [$/kg] *)
  row_energy : xnum           (* [MJ/kg] *)
}.

(** The in-place unit conversions of the data array, then the
    [Material] built from row [i]. *)
Definition material_of_row (row : table_row) : Material :=
  mkMaterial (row_name row)
    (VNum Np (xmul (row_yield_stress row) (Fin 1000000)))     (* [MPa] -> [Pa] *)
    (VNum Np (xmul (row_modulus row) (Fin 1000000000)))       (* [GPa] -> [Pa] *)
    (VNum Np (xdiv (row_elongation row) (Fin 100)))           (* [%] to [actual number] *)
    (VNum Np (xmul (row_density row) (Fin 1000)))            (* [tonnes] -> [kg] *)
    (VNum Np (row_price row))
    (VNum Np (xmul (row_energy row) (Fin 1000000))).          (* [MJ/kg] -> [J/kg] *)

(** [best.append(beam)] when a search found a beam. *)
Definition append_if_found (best : list Beam) (found : option Beam) : list Beam :=
  match found with
  | Some beam => best ++ [beam]
  | None => best
  end.

(** The loop over the materials: the three lists of best beams. *)
Definition best_beams (rows : list table_row)
    : result (list Beam * list Beam * list Beam) :=
  Part2.for_each rows
    (fun row '(best_I_beams, best_RHS_beams, best_CHS_beams) =>
       let material := material_of_row row in
       best_I_beam <- Part2.get_best_I_beam material ;;
       let best_I_beams := append_if_found best_I_beams best_I_beam in
       best_RHS_beam <- Part2.get_best_RHS_beam material ;;
       let best_RHS_beams := append_if_found best_RHS_beams best_RHS_beam in
       best_CHS_beam <- Part2.get_best_CHS_beam material ;;
       let best_CHS_beams := append_if_found best_CHS_beams best_CHS_beam in
       Ok (best_I_beams, best_RHS_beams, best_CHS_beams))
    ([], [], []).

(** A cell of an output row. *)
Inductive cell : Type :=
  | CStr (s : string)
  | CVal (v : value).

(** Dimension attributes, which only some classes have. *)
Definition attr_b (self : Beam) : result value :=
  match self with
  | RHSBeam _ _ b _ _ | IBeam _ _ b _ _ _ => Ok b
  | _ => Raise AttributeError
  end.

Definition attr_h (self : Beam) : result value :=
  match self with
  | RHSBeam _ _ _ h _ | IBeam _ _ _ h _ _ => Ok h
  | _ => Raise AttributeError
  end.

Definition attr_t (self : Beam) : result value :=
  match self with
  | RHSBeam _ _ _ _ t | CHSBeam _ _ _ t => Ok t
  | _ => Raise AttributeError
  end.

Definition attr_r (self : Beam) : result value :=
  match self with
  | CHSBeam _ _ r _ => Ok r
  | _ => Raise AttributeError
  end.

Definition attr_tw (self : Beam) : result value :=
  match self with
  | IBeam _ _ _ _ tw _ => Ok tw
  | _ => Raise AttributeError
  end.

Definition attr_tf (self : Beam) : result value :=
  match self with
  | IBeam _ _ _ _ _ tf => Ok tf
  | _ => Raise AttributeError
  end.

(** The tuple of cells, built left to right. *)
Fixpoint cells (items : list (result value)) : result (list cell) :=
  match items with
  | [] => Ok []
  | item :: items' =>
      v <- item ;; rest <- cells items' ;; Ok (CVal v :: rest)
  end.

Definition named_row (self : Beam) (items : list (result value)) : result (list cell) :=
  rest <- cells items ;;
  Ok (CStr (name (material self)) :: rest).

Definition I_beam_row (beam : Beam) : result (list cell) :=
  named_row beam
    [ area beam [/] Ok MILLI [^] 2;
      attr_b beam [/] Ok MILLI;
      attr_h beam [/] Ok MILLI;
      attr_tw beam [/] Ok MILLI;
      attr_tf beam [/] Ok MILLI;
      second_moment_of_area_xx beam [/] Ok MILLI [^] 4;
      second_moment_of_area_yy beam [/] Ok MILLI [^] 4;
      buckling_load beam [/] Ok KILO;
      squash_load beam [/] Ok KILO;
      get_strain beam Part2.loading;
      total_embodied_energy beam [/] Ok MEGA;
      cost beam;
      embodied_energy_cost beam;
      total_cost beam ].

Definition RHS_beam_row (beam : Beam) : result (list cell) :=
  named_row beam
    [ area beam [/] Ok MILLI [^] 2;
      attr_b beam [/] Ok MILLI;
      attr_h beam [/] Ok MILLI;
      attr_t beam [/] Ok MILLI;
      second_moment_of_area_xx beam [/] Ok MILLI [^] 4;
      second_moment_of_area_yy beam [/] Ok MILLI [^] 4;
      buckling_load beam [/] Ok KILO;
      squash_load beam [/] Ok KILO;
      get_strain beam Part2.loading;
      total_embodied_energy beam [/] Ok MEGA;
      cost beam;
      embodied_energy_cost beam;
      total_cost beam ].

Definition CHS_beam_row (beam : Beam) : result (list cell) :=
  named_row beam
    [ area beam [/] Ok MILLI [^] 2;
      attr_r beam [/] Ok MILLI;
      attr_t beam [/] Ok MILLI;
      second_moment_of_area_xx beam [/] Ok MILLI [^] 4;
      second_moment_of_area_yy beam [/] Ok MILLI [^] 4;
      buckling_load beam [/] Ok KILO;
      squash_load beam [/] Ok KILO;
      get_strain beam Part2.loading;
      cost beam;
      total_embodied_energy beam [/] Ok MEGA;
      embodied_energy_cost beam;
      total_cost beam ].

(** The loop that writes one row per beam of a list, after the headers. *)
Definition write_rows (row_of : Beam -> result (list cell)) (beams : list Beam)
    : result (list (list cell)) :=
  Part2.for_each beams
    (fun beam written => row <- row_of beam ;; Ok (written ++ [row])) [].

(** The computation of the whole script from the table on: the three
    lists of best beams, then the rows of the three files. *)
Definition results (rows : list table_row)
    : result (list (list cell) * list (list cell) * list (list cell)) :=
  best <- best_beams rows ;;
  let '(best_I_beams, best_RHS_beams, best_CHS_beams) := best in
  I_rows <- write_rows I_beam_row best_I_beams ;;
  RHS_rows <- write_rows RHS_beam_row best_RHS_beams ;;
  CHS_rows <- write_rows CHS_beam_row best_CHS_beams ;;
  Ok (I_rows, RHS_rows, CHS_rows).

(** What the driver keeps of a search over the rows of the table: a
    sufficient beam of the grid of the material of one of the rows. *)
Definition kept_from (grid : Material -> list Beam) (rows : list table_row)
    (beam : Beam) : Prop :=
  sufficient beam Part2.loading /\
  exists row, In row rows /\ In beam (grid (material_of_row row)).

End Driver.


(** * The same code over Python objects, and in binary64

    The exact reading above decides what depends on the control flow
    and on the order of the numbers only.  Two things it cannot decide:
    what happens to a value that is no number at all, and what rounding
    does.  [Objects] embeds [beams.py] once more with the objects and
    their operators left abstract (an interface, as duck typing makes
    them); [Binary64] instantiates it with IEEE 754 doubles, the
    arithmetic of a Python [float] and of a [numpy.float64], and embeds
    [np.arange] and the searches of [part2.py] over them. *)

Module Objects.

(** ** Exceptions and results *)

Inductive exn : Type :=
  | AttributeError
  | TypeError
  | ZeroDivisionError
  | OverflowError
  | OtherError (class_name : string).

Inductive result (A : Type) : Type :=
  | Ok (a : A)
  | Raise (e : exn).
Arguments Ok {A} a.
Arguments Raise {A} e.

Definition bind {A B : Type} (r : result A) (k : A -> result B) : result B :=
  match r with
  | Ok a => k a
  | Raise e => Raise e
  end.

Declare Scope obj_scope.
Delimit Scope obj_scope with obj.
Notation "x <- r ;; k" := (bind r (fun x => k))
  (at level 61, r at next level, right associativity) : obj_scope.
Local Open Scope obj_scope.

(** ** Objects *)

(** What the code asks of the objects other than [None] that it
    handles: the binary operators and the comparisons it applies to two
    of them, each of which returns or raises as the types of its
    operands decide; the [int] literals; and the two [float] constants.
    A comparison gives the truth value of its result, the only use the
    code makes of it. *)
Class PyObject (obj : Type) : Type := {
  int_literal : Z -> obj;
  (** [math.pi] *)
  math_pi : obj;
  (** the module constant [ELECTRICITY_COST = 0.314 / 10**3 / 3600] *)
  ELECTRICITY_COST : obj;
  op_add : obj -> obj -> result obj;
  op_sub : obj -> obj -> result obj;
  op_mul : obj -> obj -> result obj;
  op_truediv : obj -> obj -> result obj;
  (** [x ** n] for an [int] literal [n] *)
  op_pow : obj -> nat -> result obj;
  op_lt : obj -> obj -> result bool;
  op_le : obj -> obj -> result bool;
  op_gt : obj -> obj -> result bool;
  op_ge : obj -> obj -> result bool;
  op_eq : obj -> obj -> result bool
}.

Section Beams.

Context {obj : Type} {O : PyObject obj}.

(** The value of an attribute: [None] or another object. *)
Inductive value : Type :=
  | VNone
  | VObj (o : obj).

(** [None] supports no arithmetic and no ordering, whatever the other
    operand: the operator raises [TypeError]. *)
Definition binary (op : obj -> obj -> result obj) (a b : value) : result value :=
  match a, b with
  | VObj x, VObj y => r <- op x y ;; Ok (VObj r)
  | _, _ => Raise TypeError
  end.

Definition v_add : value -> value -> result value := binary op_add.
Definition v_sub : value -> value -> result value := binary op_sub.
Definition v_mul : value -> value -> result value := binary op_mul.
Definition v_div : value -> value -> result value := binary op_truediv.

Definition v_pow (a : value) (n : nat) : result value :=
  match a with
  | VObj x => r <- op_pow x n ;; Ok (VObj r)
  | VNone => Raise TypeError
  end.

Definition ordering (op : obj -> obj -> result bool) (a b : value) : result bool :=
  match a, b with
  | VObj x, VObj y => op x y
  | _, _ => Raise TypeError
  end.

Definition v_lt : value -> value -> result bool := ordering op_lt.
Definition v_le : value -> value -> result bool := ordering op_le.
Definition v_gt : value -> value -> result bool := ordering op_gt.
Definition v_ge : value -> value -> result bool := ordering op_ge.

(** [a == b]: [None] equals [None] and no other object. *)
Definition v_eq (a b : value) : result bool :=
  match a, b with
  | VNone, VNone => Ok true
  | VObj x, VObj y => op_eq x y
  | _, _ => Ok false
  end.

(** The builtin [min(a, b)]: [b] when [b < a], otherwise [a]. *)
Definition py_min (a b : value) : result value :=
  lt <- v_lt b a ;;
  Ok (if lt then b else a).

(** [try: ... except (AttributeError, TypeError): return None]. *)
Definition or_none (r : result value) : result value :=
  match r with
  | Raise AttributeError | Raise TypeError => Ok VNone
  | other => other
  end.

(** Reading an attribute that an instance may lack. *)
Definition getattr (a : option value) : result value :=
  match a with
  | Some v => Ok v
  | None => Raise AttributeError
  end.

(** Operators on results, evaluating the left operand first as Python
    does. *)
Definition bin (op : value -> value -> result value)
    (ra rb : result value) : result value :=
  a <- ra ;; b <- rb ;; op a b.

Notation "a [+] b" := (bin v_add a b) (at level 50, left associativity) : obj_scope.
Notation "a [-] b" := (bin v_sub a b) (at level 50, left associativity) : obj_scope.
Notation "a [*] b" := (bin v_mul a b) (at level 40, left associativity) : obj_scope.
Notation "a [/] b" := (bin v_div a b) (at level 40, left associativity) : obj_scope.
Notation "a [^] n" := (bind a (fun v => v_pow v n)) (at level 30, right associativity) : obj_scope.

(** An integer literal. *)
Definition lit (z : Z) : result value := Ok (VObj (int_literal z)).

(** ** beams.py *)

Record Material : Type := mkMaterial {
  name : string;
  yield_stress : value;
  modulus : value;
  elongation : value;
  density : value;
  price : value;
  energy_density : value
}.

Definition electricity_cost (_ : Material) : value := VObj ELECTRICITY_COST.

(** A beam is an instance of one of the three cross-section classes, or
    an instance of [Beam] itself (or of a further subclass) on which
    [length], [area] and the two second moments of area are plain
    attributes that may or may not have been set. *)
Inductive Beam : Type :=
  | GenericBeam (material : Material)
      (length area second_moment_of_area_xx second_moment_of_area_yy : option value)
  | RHSBeam (material : Material) (length b h t : value)
  | CHSBeam (material : Material) (length r t : value)
  | IBeam (material : Material) (length b h tw tf : value).

Definition material (self : Beam) : Material :=
  match self with
  | GenericBeam m _ _ _ _ | RHSBeam m _ _ _ _ | CHSBeam m _ _ _ | IBeam m _ _ _ _ _ => m
  end.

Definition length (self : Beam) : result value :=
  match self with
  | GenericBeam _ l _ _ _ => getattr l
  | RHSBeam _ l _ _ _ | CHSBeam _ l _ _ | IBeam _ l _ _ _ _ => Ok l
  end.

Definition area (self : Beam) : result value :=
  match self with
  | GenericBeam _ _ a _ _ => getattr a
  | RHSBeam _ _ b h t =>
      Ok b [*] Ok h [-] (Ok b [-] lit 2 [*] Ok t) [*] (Ok h [-] lit 2 [*] Ok t)
  | CHSBeam _ _ r t =>
      (* Simplified calcuation for area of CHS *)
      Ok (VObj math_pi) [*] (lit 2 [*] Ok r [*] Ok t [-] Ok t [^] 2)
  | IBeam _ _ b h tw tf =>
      a_flanges <- lit 2 [*] Ok b [*] Ok tf ;;
      a_web <- Ok tw [*] (Ok h [-] lit 2 [*] Ok tf) ;;
      Ok a_flanges [+] Ok a_web
  end.

Definition second_moment_of_area_xx (self : Beam) : result value :=
  match self with
  | GenericBeam _ _ _ ixx _ => getattr ixx
  | RHSBeam _ _ b h t =>
      I_big <- Ok b [*] Ok h [^] 3 [/] lit 12 ;;
      I_small <- (Ok b [-] lit 2 [*] Ok t) [*] (Ok h [-] lit 2 [*] Ok t) [^] 3 [/] lit 12 ;;
      Ok I_big [-] Ok I_small
  | CHSBeam _ _ r t =>
      Ok (VObj math_pi) [/] lit 4 [*] (Ok r [^] 4 [-] (Ok r [-] Ok t) [^] 4)
  | IBeam _ _ b h tw tf =>
      (* the I-beam as a large rectangle minus two rectangles either side *)
      I_big <- Ok b [*] Ok h [^] 3 [/] lit 12 ;;
      b_small <- (Ok b [-] Ok tw) [/] lit 2 ;;
      h_small <- Ok h [-] lit 2 [*] Ok tf ;;
      I_small <- Ok b_small [*] Ok h_small [^] 3 [/] lit 12 ;;
      Ok I_big [-] lit 2 [*] Ok I_small
  end.

Definition second_moment_of_area_yy (self : Beam) : result value :=
  match self with
  | GenericBeam _ _ _ _ iyy => getattr iyy
  | RHSBeam _ _ b h t =>
      I_big <- Ok h [*] Ok b [^] 3 [/] lit 12 ;;
      I_small <- (Ok h [-] lit 2 [*] Ok t) [*] (Ok b [-] lit 2 [*] Ok t) [^] 3 [/] lit 12 ;;
      Ok I_big [-] Ok I_small
  | CHSBeam _ _ _ _ =>
      (* By symmetry *)
      second_moment_of_area_xx self
  | IBeam _ _ b h tw tf =>
      (* the two flanges plus the web *)
      I_flange <- Ok tf [*] Ok b [^] 3 [/] lit 12 ;;
      I_web <- (Ok h [-] lit 2 [*] Ok tf) [*] Ok tw [^] 3 [/] lit 12 ;;
      lit 2 [*] Ok I_flange [+] Ok I_web
  end.

(** The derived properties of the base class.  Caching a property does
    not change its value, since no attribute is reassigned. *)

Definition volume (self : Beam) : result value :=
  or_none (area self [*] length self).

Definition mass (self : Beam) : result value :=
  or_none (volume self [*] Ok (density (material self))).

Definition cost (self : Beam) : result value :=
  or_none (mass self [*] Ok (price (material self))).

Definition total_embodied_energy (self : Beam) : result value :=
  or_none (mass self [*] Ok (energy_density (material self))).

Definition embodied_energy_cost (self : Beam) : result value :=
  or_none (total_embodied_energy self [*] Ok (electricity_cost (material self))).

Definition total_cost (self : Beam) : result value :=
  or_none (cost self [+] embodied_energy_cost self).

Definition buckling_load (self : Beam) : result value :=
  or_none (
    min_I <- (ixx <- second_moment_of_area_xx self ;;
              iyy <- second_moment_of_area_yy self ;;
              py_min ixx iyy) ;;
    (* Assume pin-pin connection (i.e. effective length = 1 * length) *)
    Ok (VObj math_pi) [^] 2 [*] Ok (modulus (material self)) [*] Ok min_I
      [/] length self [^] 2).

Definition squash_load (self : Beam) : result value :=
  or_none (Ok (yield_stress (material self)) [*] area self).

Definition get_strain (self : Beam) (loading : value) : result value :=
  or_none (
    stress <- Ok loading [/] area self ;;
    Ok stress [/] Ok (modulus (material self))).

(** [is_sufficient] returns [None] or the operand at which its chain of
    [and] stops; [Some c] stands for an operand of truth value [c]. *)
Definition is_sufficient (self : Beam) (loading : value) : result (option bool) :=
  match
    strain <- get_strain self loading ;;
    sq <- squash_load self ;;
    c1 <- v_ge sq loading ;;
    if c1 then
      bk <- buckling_load self ;;
      c2 <- v_ge bk loading ;;
      if c2 then
        c3 <- v_le strain (elongation (material self)) ;;
        Ok (Some c3)
      else Ok (Some false)
    else Ok (Some false)
  with
  | Raise AttributeError | Raise TypeError => Ok None
  | other => other
  end.

(** Truth value of what [is_sufficient] returns. *)
Definition truthy (r : option bool) : bool :=
  match r with
  | Some true => true
  | _ => false
  end.

Definition get_new_best_beam (self : Beam) (loading : value)
    (curr_best_beam : option Beam) : result (option Beam) :=
  s <- is_sufficient self loading ;;
  if truthy s then
    (* Make sure we have a best beam to "compare" with at start *)
    let curr_best_beam := match curr_best_beam with
                          | None => self
                          | Some c => c
                          end in
    a <- area self ;;
    ca <- area curr_best_beam ;;
    smaller <- v_lt a ca ;;
    if smaller then
      (* the source assigns [self] to a local [best_beam] here and then
         returns [curr_best_beam] *)
      Ok (Some curr_best_beam)
    else
      same <- v_eq a ca ;;
      if same then
        Ix <- second_moment_of_area_xx self ;;
        best_Ix <- second_moment_of_area_xx curr_best_beam ;;
        Iy <- second_moment_of_area_yy self ;;
        best_Iy <- second_moment_of_area_yy curr_best_beam ;;
        gx <- v_gt Ix best_Ix ;;
        if gx then
          gy <- v_gt Iy best_Iy ;;
          Ok (Some (if gy then self else curr_best_beam))
        else Ok (Some curr_best_beam)
      else Ok (Some curr_best_beam)
  else Ok curr_best_beam.

(** ** Vocabulary of the statements *)

(** A quantity is undefined when it is [None], when the attribute is
    missing, or when computing it raised [TypeError]. *)
Definition undefined (r : result value) : Prop :=
  r = Ok VNone \/ r = Raise AttributeError \/ r = Raise TypeError.

(** An exception that the handlers [except (AttributeError, TypeError)]
    let through. *)
Definition uncaught (e : exn) : Prop :=
  e <> AttributeError /\ e <> TypeError.

(** A computation from which such an exception escapes. *)
Definition escapes {A : Type} (r : result A) : Prop :=
  exists e, r = Raise e /\ uncaught e.

(** With an undefined input a property returns [None], unless an
    exception that the handlers let through was raised before the
    undefined value was used. *)
Definition None_or_escapes (r : result value) : Prop :=
  r = Ok VNone \/ escapes r.

End Beams.

Arguments value obj : clear implicits.
Arguments Material obj : clear implicits.
Arguments Beam obj : clear implicits.

End Objects.

Module Binary64.

Import Objects.
Import PrimFloat SpecFloat FloatOps.
Local Open Scope obj_scope.
Local Open Scope float_scope.

(** ** Doubles *)

(** The double nearest to an integer (ties to even), which the
    conversion of an [int] operand gives. *)
Definition Z2float (z : Z) : float :=
  SF2Prim (binary_normalize prec emax z 0 false).

(** The C function [pow(x, n)] for an integer [n >= 0], which both
    Python and numpy call for [x ** n]; it is taken as correctly
    rounded: the double nearest to the exact power. *)
Definition pow (x : float) (n : nat) : float :=
  match n with
  | O => 1
  | S _ =>
      match Prim2SF x with
      | S754_nan => nan
      | S754_zero s => if s && Nat.odd n then neg_zero else zero
      | S754_infinity s => if s && Nat.odd n then neg_infinity else infinity
      | S754_finite s m e =>
          SF2Prim (binary_normalize prec emax
                     (cond_Zopp (s && Nat.odd n) (Z.pos m ^ Z.of_nat n))
                     (e * Z.of_nat n) false)
      end
  end.

(** A number is a Python [float] or a [numpy.float64] (what
    [np.arange] and the material table yield); both hold a double.  An
    [int] of the source (the literals 2, 3, 4 and 12, the load
    [24 * KILO]) stands as the [float] it converts to, exactly. *)
Inductive number : Type :=
  | PyFloat (x : float)
  | NpFloat64 (x : float).

Definition double (a : number) : float :=
  match a with
  | PyFloat x | NpFloat64 x => x
  end.

(** A binary operation with a numpy operand is carried out by numpy and
    gives a numpy scalar. *)
Definition arith (f : float -> float -> float) (a b : number) : number :=
  match a, b with
  | PyFloat x, PyFloat y => PyFloat (f x y)
  | _, _ => NpFloat64 (f (double a) (double b))
  end.

(** [a / b]: between two Python floats a zero divisor raises; with a
    numpy operand the division is IEEE's and returns [inf] or [nan]. *)
Definition truediv (a b : number) : result number :=
  match a, b with
  | PyFloat x, PyFloat y =>
      if is_zero y then Raise ZeroDivisionError else Ok (PyFloat (x / y))
  | _, _ => Ok (NpFloat64 (double a / double b))
  end.

(** [a ** n]: Python raises [OverflowError] when the power of a finite
    float is out of range; numpy returns [inf]. *)
Definition power (a : number) (n : nat) : result number :=
  match a with
  | PyFloat x =>
      if is_finite x && is_infinity (pow x n) then Raise OverflowError
      else Ok (PyFloat (pow x n))
  | NpFloat64 x => Ok (NpFloat64 (pow x n))
  end.

Definition compare_with (f : float -> float -> bool) (a b : number) : result bool :=
  Ok (f (double a) (double b)).

#[export] Instance number_object : PyObject number := {|
  int_literal z := PyFloat (Z2float z);
  math_pi := PyFloat 0x1.921fb54442d18p+1;
  (* 0.314 is the double 0x1.4189374bc6a7fp-2 *)
  ELECTRICITY_COST := PyFloat (0x1.4189374bc6a7fp-2 / pow (Z2float 10) 3 / Z2float 3600);
  op_add a b := Ok (arith add a b);
  op_sub a b := Ok (arith sub a b);
  op_mul a b := Ok (arith mul a b);
  op_truediv := truediv;
  op_pow := power;
  op_lt := compare_with ltb;
  op_le := compare_with leb;
  op_gt := compare_with (fun x y => ltb y x);
  op_ge := compare_with (fun x y => leb y x);
  op_eq := compare_with eqb
|}.

(** ** numpy *)

(** The least integer not below a finite double. *)
Definition ceil (x : float) : Z :=
  match Prim2SF x with
  | S754_finite s m e =>
      let n := cond_Zopp s (Z.pos m) in
      if (0 <=? e)%Z then (n * 2 ^ e)%Z else (- (- n / 2 ^ (- e)))%Z
  | _ => 0%Z
  end.

(** [buffer[i] = start + i*delta] for [n] indices from [i] on. *)
Fixpoint fill (start delta i : float) (n : nat) : list float :=
  match n with
  | O => []
  | S n' => (start + i * delta) :: fill start delta (i + 1) n'
  end.

(** [np.arange(start, stop, step)] on doubles, as numpy computes it:
    [ceil((stop - start) / step)] values, the first two [start] and
    [start + step], the others [start + i*delta] with [delta] the
    difference of the first two. *)
Definition arange (start stop step : float) : result (list float) :=
  let value := (stop - start) / step in
  if is_nan value then Raise (OtherError "ValueError")
  else if is_infinity value then Raise OverflowError
  else if (2 ^ 63 <? Z.abs (ceil value))%Z then Raise OverflowError
  else
    let next := start + step in
    match Z.to_nat (ceil value) with
    | O => Ok []
    | S O => Ok [start]
    | S (S n) => Ok (start :: next :: fill start (next - start) 2 n)
    end.

(** The elements of an [arange] are numpy scalars. *)
Definition np (x : float) : value number := VObj (NpFloat64 x).

(** A [for] loop that rebinds one variable and lets exceptions escape. *)
Fixpoint for_each {A S : Type} (l : list A) (body : A -> S -> result S)
    (s : S) : result S :=
  match l with
  | [] => Ok s
  | a :: l' => s' <- body a s ;; for_each l' body s'
  end.

(** [for x in range: body], the range evaluated once. *)
Definition for_in {A S : Type} (range : result (list A)) (body : A -> S -> result S)
    (s : S) : result S :=
  l <- range ;; for_each l body s.

(** ** part2.py *)

Module Part2.

(** SI prefixes; [10**(-3)] is the double nearest to 1/1000. *)
Definition MILLI : float := Eval vm_compute in 1 / pow (Z2float 10) 3.
Definition KILO : float := Eval vm_compute in pow (Z2float 10) 3.
Definition MEGA : float := Eval vm_compute in pow (Z2float 10) 6.
Definition GIGA : float := Eval vm_compute in pow (Z2float 10) 9.

(** Variables related to shape/loading of beam. *)
Definition length : value number := Eval vm_compute in VObj (PyFloat (2000 * MILLI)).  (* [m] *)
Definition loading : value number := Eval vm_compute in VObj (PyFloat (24 * KILO)).    (* [N] *)
Definition max_breadth : float := Eval vm_compute in 30 * MILLI.                        (* [m] *)
Definition max_height : float := Eval vm_compute in 100 * MILLI.                        (* [m] *)

(** The "step-size" for each dimension of every beam. *)
Definition step_size : float := Eval vm_compute in 1 * MILLI.                           (* [m] *)

(** [min(b, h)] on two grid values. *)
Definition min_dim (b h : float) : float := if h <? b then h else b.

(** The ranges of the loops. *)
Definition breadths : result (list float) :=
  arange step_size (max_breadth + step_size) step_size.
Definition heights : result (list float) :=
  arange step_size (max_height + step_size) step_size.
Definition webs (b : float) : result (list float) :=
  arange step_size (b + step_size) step_size.
Definition flanges (h : float) : result (list float) :=
  arange step_size (h / 2 + step_size) step_size.

Definition get_best_I_beam (material : Material number) : result (option (Beam number)) :=
  for_in breadths (fun b =>
    for_in heights (fun h =>
      for_in (webs b) (fun tw =>
        for_in (flanges h) (fun tf best_I_beam =>
          get_new_best_beam (IBeam material length (np b) (np h) (np tw) (np tf))
            loading best_I_beam))))
    None.

(** The wall thicknesses tried for a breadth and a height. *)
Definition RHS_thicknesses (b h : float) : result (list float) :=
  (* Walls' thickness is constrained by overall breadth/height of beam *)
  let min_dimension := min_dim b h in
  arange step_size (min_dimension / 2 + step_size) step_size.

Definition get_best_RHS_beam (material : Material number) : result (option (Beam number)) :=
  for_in breadths (fun b =>
    for_in heights (fun h =>
      for_in (RHS_thicknesses b h) (fun t best_RHS_beam =>
        get_new_best_beam (RHSBeam material length (np b) (np h) (np t))
          loading best_RHS_beam)))
    None.

(** The radii and, for a radius, the wall thicknesses of the circular
    sections. *)
Definition radii : result (list float) :=
  let min_dimension := min_dim max_breadth max_height in
  (* Restrict to minimum dimensions (should be 30mm). *)
  arange step_size (min_dimension / 2 + step_size) step_size.
Definition walls (r : float) : result (list float) :=
  arange step_size (r + step_size) step_size.

Definition get_best_CHS_beam (material : Material number) : result (option (Beam number)) :=
  for_in radii (fun r =>
    for_in (walls r) (fun t best_CHS_beam =>
      get_new_best_beam (CHSBeam material length (np r) (np t))
        loading best_CHS_beam))
    None.

End Part2.

(** ** Vocabulary of the statements *)

(** A value that a loop over the range takes. *)
Definition enumerates {A : Type} (range : result (list A)) (x : A) : Prop :=
  exists l, range = Ok l /\ In x l.

(** A test that holds of every value of a range. *)
Definition all_of {A : Type} (range : result (list A)) (p : A -> bool) : bool :=
  match range with
  | Ok l => forallb p l
  | Raise _ => false
  end.

(** Each value of the list is below the next. *)
Fixpoint increasing (l : list float) : bool :=
  match l with
  | x :: ((y :: _) as l') => (x <? y) && increasing l'
  | _ => true
  end.

(** [x.area < y.area]. *)
Definition area_lt (x y : Beam number) : result bool :=
  a <- area x ;; a' <- area y ;; v_lt a a'.

(** The exact area of an annulus of outer radius [r] and wall thickness
    [t], [pi * (r**2 - (r - t)**2)], as the specification writes it; the
    source has no such expression. *)
Definition exact_annulus_area (r t : value number) : result (value number) :=
  bin v_mul (Ok (VObj math_pi))
    (bin v_sub (bind (Ok r) (fun v => v_pow v 2))
       (bind (bin v_sub (Ok r) (Ok t)) (fun v => v_pow v 2))).

(** The doubles that the three [area] properties compute from the
    doubles of the dimensions. *)
Definition I_area (b h tw tf : float) : float :=
  2 * b * tf + tw * (h - 2 * tf).
Definition RHS_area (b h t : float) : float :=
  b * h - (b - 2 * t) * (h - 2 * t).
Definition CHS_area (r t : float) : float :=
  0x1.921fb54442d18p+1 * (2 * r * t - pow t 2).

Definition CHS_second_moment (r t : float) : float :=
  0x1.921fb54442d18p+1 / 4 * (pow r 4 - pow (r - t) 4).

(** Half a step, which separates the differences of two grid values
    that are a step or more from those that are rounding. *)
Definition half_step : float := Eval vm_compute in Part2.step_size / 2.

(** ** The beams of a search and what it keeps *)

(** The values of a range that did not raise. *)
Definition values {A : Type} (range : result (list A)) : list A :=
  match range with
  | Ok l => l
  | Raise _ => []
  end.

(** The beams that each search builds, in the order of its loops. *)
Definition I_beams_tried (material : Material number) : list (Beam number) :=
  flat_map (fun b =>
    flat_map (fun h =>
      flat_map (fun tw =>
        map (fun tf => IBeam material Part2.length (np b) (np h) (np tw) (np tf))
          (values (Part2.flanges h)))
        (values (Part2.webs b)))
      (values Part2.heights))
    (values Part2.breadths).

Definition RHS_beams_tried (material : Material number) : list (Beam number) :=
  flat_map (fun b =>
    flat_map (fun h =>
      map (fun t => RHSBeam material Part2.length (np b) (np h) (np t))
        (values (Part2.RHS_thicknesses b h)))
      (values Part2.heights))
    (values Part2.breadths).

Definition CHS_beams_tried (material : Material number) : list (Beam number) :=
  flat_map (fun r =>
    map (fun t => CHSBeam material Part2.length (np r) (np t))
      (values (Part2.walls r)))
    (values Part2.radii).

(** The pairwise reduction of a list of beams with [get_new_best_beam],
    seeded with no incumbent. *)
Definition reduce_best (loading : value number) (beams : list (Beam number))
    : result (option (Beam number)) :=
  for_each beams
    (fun candidate incumbent => get_new_best_beam candidate loading incumbent) None.

Definition sufficient (self : Beam number) (loading : value number) : Prop :=
  is_sufficient self loading = Ok (Some true).

(** [is_sufficient] returned [True]. *)
Definition is_sufficient_true (loading : value number) (self : Beam number) : bool :=
  match is_sufficient self loading with
  | Ok (Some true) => true
  | _ => false
  end.

(** The first sufficient beam of a list. *)
Definition first_sufficient (loading : value number) (beams : list (Beam number))
    : option (Beam number) :=
  find (is_sufficient_true loading) beams.

(** [x.area == y.area]. *)
Definition same_area (x y : Beam number) : Prop :=
  exists a a', area x = Ok a /\ area y = Ok a' /\ v_eq a a' = Ok true.

(** The outcome of a search over a list of beams: no beam when none is
    sufficient, and otherwise a sufficient beam of the list with the
    area of the first sufficient one. *)
Definition first_area_outcome (loading : value number) (beams : list (Beam number))
    (r : result (option (Beam number))) : Prop :=
  exists best, r = Ok best /\
    match first_sufficient loading beams with
    | None => best = None
    | Some f =>
        exists b, best = Some b /\ In b beams /\ sufficient b loading /\
                  same_area b f
    end.

(** A beam whose check returns under the load, and whose area and
    second moments of area are numbers, the area no [nan]. *)
Definition regular (loading : value number) (self : Beam number) : Prop :=
  (exists s, is_sufficient self loading = Ok s) /\
  exists a ix iy,
    area self = Ok (VObj a) /\ (double a =? double a) = true /\
    second_moment_of_area_xx self = Ok (VObj ix) /\
    second_moment_of_area_yy self = Ok (VObj iy).

(** Every range of the searches returns. *)
Definition returns {A : Type} (range : result (list A)) : bool :=
  match range with
  | Ok _ => true
  | Raise _ => false
  end.

(** The ranges that depend on a breadth, on a height and on a radius
    return. *)
Definition ranges_of_breadth_return (b : float) : bool :=
  returns (Part2.webs b) &&
  all_of Part2.heights (fun h => returns (Part2.RHS_thicknesses b h)).

(** ** Tests run over the ranges of the searches *)

(** The bounds of a wall thickness of a hollow rectangle. *)
Definition RHS_wall_in_bounds (b h t : float) : bool :=
  (Part2.step_size <=? t) &&
  (t <=? Part2.min_dim b h / 2 + Part2.step_size) &&
  (2 * t <=? Part2.min_dim b h + 2 * Part2.step_size).

Definition over_RHS_ranges (p : float -> float -> float -> bool) : bool :=
  all_of Part2.breadths (fun b =>
    all_of Part2.heights (fun h =>
      all_of (Part2.RHS_thicknesses b h) (fun t => p b h t))).

(** The area of a hollow rectangle is positive, or zero with all three
    dimensions one step. *)
Definition RHS_area_in_bounds (b h t : float) : bool :=
  (0 <? RHS_area b h t) ||
  ((RHS_area b h t =? 0) && (b =? Part2.step_size) && (h =? Part2.step_size) &&
   (t =? Part2.step_size)).

(** For a breadth, a height, a flange thickness and the web thicknesses
    of the breadth: with a web at least a step high, the areas grow with
    the web thickness. *)
Definition web_pass (b h tf : float) (ws : list float) : bool :=
  if half_step <? h - 2 * tf
  then increasing (map (fun tw => I_area b h tw tf) ws)
  else true.

(** The test of the web thicknesses of one breadth. *)
Definition webs_pass (b : float) : bool :=
  match Part2.webs b with
  | Ok ws =>
      increasing ws &&
      all_of Part2.heights (fun h =>
        all_of (Part2.flanges h) (fun tf => web_pass b h tf ws))
  | Raise _ => false
  end.

(** For a breadth, a height, a web thickness and the flange thicknesses
    of the height: the areas are positive and finite, and with a web at least a
    step thinner than the flanges are broad they grow with the flange
    thickness. *)
Definition flange_pass (b h tw : float) (fs : list float) : bool :=
  let areas := map (fun tf => I_area b h tw tf) fs in
  forallb (fun a => (0 <? a) && (a <? infinity)) areas &&
  (if half_step <? b - tw then increasing areas else true).

(** The test of the flange thicknesses of one height. *)
Definition flanges_pass (h : float) : bool :=
  match Part2.flanges h with
  | Ok fs =>
      increasing fs &&
      all_of Part2.breadths (fun b =>
        all_of (Part2.webs b) (fun tw => flange_pass b h tw fs))
  | Raise _ => false
  end.

(** A wall of a circular section is at least one step and at most one
    step more than the radius; the area and the second moment of area
    are positive. *)
Definition CHS_in_bounds (r t : float) : bool :=
  (Part2.step_size <=? t) && (t <=? r + Part2.step_size) &&
  (0 <? CHS_area r t) && (0 <? CHS_second_moment r t).

Definition over_CHS_ranges (p : float -> float -> bool) : bool :=
  all_of Part2.radii (fun r => all_of (Part2.walls r) (fun t => p r t)).

End Binary64.

(** ** Concrete materials and beams in binary64 *)

Module Examples64.

Import Objects Binary64.
Import PrimFloat.
Local Open Scope float_scope.

Definition pyfloat (x : float) : value number := VObj (PyFloat x).

(** Structural steel, in SI units. *)
Definition steel : Material number :=
  mkMaterial "steel" (pyfloat 250000000) (pyfloat 200000000000)
    (pyfloat (21 / 100)) (pyfloat 7850) (pyfloat (8 / 10)) (pyfloat 25000000).

(** A hollow rectangle with Python dimensions [b = h = t = 1.0], whose
    area is [1*1 - (1 - 2)*(1 - 2) = 0.0], and whose length is [None]. *)
Definition rhs_1x1x1_no_length : Beam number :=
  RHSBeam steel VNone (pyfloat 1) (pyfloat 1) (pyfloat 1).

(** [1e155], whose square is out of the range of a double. *)
Definition huge : float := Eval vm_compute in pow 10 155.

(** A round bar of radius and wall [1e155], and an instance of the base
    class [1e155] long with its section properties set by hand. *)
Definition chs_huge : Beam number :=
  CHSBeam steel (pyfloat 2) (pyfloat huge) (pyfloat huge).
Definition long_section : Beam number :=
  GenericBeam steel (Some (pyfloat huge)) (Some (pyfloat 1))
    (Some (pyfloat 1)) (Some (pyfloat 1)).

(** The second and the third value of every range that starts at one
    step: 2 mm and 3 mm as the loops hold them. *)
Definition two_steps : float := Eval vm_compute in Part2.step_size + Part2.step_size.
Definition three_steps : float :=
  Eval vm_compute in
    Part2.step_size + 2 * (Part2.step_size + Part2.step_size - Part2.step_size).

(** The tenth and the eleventh value of such a range: 10 mm and 11 mm as
    the loops hold them. *)
Definition ten_steps : float :=
  Eval vm_compute in
    Part2.step_size + 9 * (Part2.step_size + Part2.step_size - Part2.step_size).
Definition eleven_steps : float :=
  Eval vm_compute in
    Part2.step_size + 10 * (Part2.step_size + Part2.step_size - Part2.step_size).

(** The same steel as a row of the material table holds it: numpy
    scalars. *)
Definition steel_table : Material number :=
  mkMaterial "steel" (np 250000000) (np 200000000000)
    (np (21 / 100)) (np 7850) (np (8 / 10)) (np 25000000).

End Examples64.
(** * Running the model *)

Example rhs_30x100x3_area :
  exists q, area Examples.rhs_30x100x3 = Ok (VNum Py (Fin q)) /\ q == 744 # 1000000.
Proof. eexists. split; reflexivity. Qed.

Example rhs_30x100x3_squash_load :
  exists q, squash_load Examples.rhs_30x100x3 = Ok (VNum Py (Fin q)) /\ q == 186000.
Proof. eexists. split; reflexivity. Qed.

Example rhs_30x100x3_is_sufficient :
  is_sufficient Examples.rhs_30x100x3 Examples.load_24kN = Ok (Some true).
Proof. vm_compute. reflexivity. Qed.

Example base_class_beam_is_undefined :
  let beam := GenericBeam Examples.steel None None None None in
  volume beam = Ok VNone /\ total_cost beam = Ok VNone /\
  buckling_load beam = Ok VNone /\
  get_strain beam Examples.load_24kN = Ok VNone /\
  is_sufficient beam Examples.load_24kN = Ok None.
Proof. repeat split. Qed.

(** * Properties *)

(** ** Comparisons of numbers *)

Lemma Qltb_true (p q : Q) : Qltb p q = true <-> p < q.
Proof.
  unfold Qltb. rewrite Qlt_alt.
  destruct (p ?= q); split; congruence.
Qed.

Lemma Qltb_false (p q : Q) : Qltb p q = false <-> q <= p.
Proof.
  unfold Qltb. rewrite Qle_alt, <- Qgt_alt, Qlt_alt.
  destruct (p ?= q); split; congruence.
Qed.

Lemma Qis0_true (q : Q) : Qis0 q = true <-> q == 0.
Proof. apply Qeq_bool_iff. Qed.

Lemma Qeq_bool_false (p q : Q) : Qeq_bool p q = false <-> ~ p == q.
Proof.
  rewrite <- Qeq_bool_iff. destruct (Qeq_bool p q); split; congruence.
Qed.

Lemma xltb_irrefl (a : xnum) : xltb a a = false.
Proof.
  destruct a; simpl; trivial. apply Qltb_false. apply Qle_refl.
Qed.

Lemma xltb_asym (a b : xnum) : xltb a b = true -> xltb b a = false.
Proof.
  destruct a, b; simpl; trivial; try discriminate.
  rewrite Qltb_true, Qltb_false. apply Qlt_le_weak.
Qed.

Lemma xltb_not_eq (a b : xnum) :
  xltb a b = true -> xeqb a b = false /\ xeqb b a = false.
Proof.
  destruct a, b; simpl; auto; try discriminate.
  rewrite Qltb_true, !Qeq_bool_false. intros H; split; intros E; rewrite E in H;
    exact (Qlt_irrefl _ H).
Qed.

Lemma xeqb_not_lt (a b : xnum) :
  xeqb a b = true -> xltb a b = false /\ xltb b a = false.
Proof.
  destruct a, b; simpl; auto; try discriminate.
  rewrite Qeq_bool_iff, !Qltb_false. intros E; rewrite E; split; apply Qle_refl.
Qed.

Lemma xleb_not_lt (a b : xnum) : xleb a b = true -> xltb b a = false.
Proof.
  unfold xleb. intros H. apply orb_true_iff in H as [H | H].
  - now apply xltb_asym.
  - now apply xeqb_not_lt in H.
Qed.

(** ** Numeric results *)

Lemma num_of_Some (r : result value) (x : xnum) :
  num_of r = Some x <-> exists k, r = Ok (VNum k x).
Proof.
  split.
  - destruct r as [[|k y]|e]; simpl; intros H; inversion H; subst; eauto.
  - intros [k ->]. reflexivity.
Qed.

Lemma compare_with_true (f : xnum -> xnum -> bool) (a b : value) (c : bool) :
  compare_with f a b = Ok c ->
  exists ka x kb y, a = VNum ka x /\ b = VNum kb y /\ c = f x y.
Proof.
  destruct a as [|ka x], b as [|kb y]; simpl; intros H; inversion H.
  now exists ka, x, kb, y.
Qed.

Lemma or_none_num (r : result value) (k : kind) (x : xnum) :
  or_none r = Ok (VNum k x) -> r = Ok (VNum k x).
Proof. destruct r as [v|[]]; simpl; congruence. Qed.

Lemma or_none_not_type_error (r : result value) (e : exn) :
  or_none r = Raise e -> e = ZeroDivisionError /\ r = Raise ZeroDivisionError.
Proof. destruct r as [v|[]]; simpl; intros H; inversion H; auto. Qed.

Lemma bin_arith_num (f : xnum -> xnum -> xnum) (ra rb : result value)
    (k : kind) (x : xnum) :
  bin (arith f) ra rb = Ok (VNum k x) ->
  exists ka a kb b, ra = Ok (VNum ka a) /\ rb = Ok (VNum kb b) /\
                    k = kjoin ka kb /\ x = f a b.
Proof.
  destruct ra as [[|ka a]|ea], rb as [[|kb b]|eb]; simpl; intros H; inversion H.
  now exists ka, a, kb, b.
Qed.

(** ** Sufficiency *)

Lemma no_zde_Ok {A : Type} (a : A) : no_zde (Ok a).
Proof. discriminate. Qed.

Lemma no_zde_getattr (a : option value) : no_zde (getattr a).
Proof. destruct a; discriminate. Qed.

Lemma no_zde_arith (f : xnum -> xnum -> xnum) (ra rb : result value) :
  no_zde ra -> no_zde rb -> no_zde (bin (arith f) ra rb).
Proof.
  unfold no_zde. destruct ra as [[|ka a]|[]], rb as [[|kb b]|[]]; simpl; congruence.
Qed.

Lemma no_zde_pow (ra : result value) (n : nat) :
  no_zde ra -> no_zde (v <- ra ;; v_pow v n).
Proof. unfold no_zde. destruct ra as [[|ka a]|[]]; simpl; congruence. Qed.

Lemma no_zde_bind {A B : Type} (r : result A) (k : A -> result B) :
  no_zde r -> (forall a, no_zde (k a)) -> no_zde (bind r k).
Proof. unfold no_zde. destruct r as [a|[]]; simpl; auto; congruence. Qed.

Lemma no_zde_or_none (r : result value) : no_zde r -> no_zde (or_none r).
Proof. unfold no_zde. destruct r as [v|[]]; simpl; congruence. Qed.

Lemma no_zde_returns (r : result value) : no_zde r -> exists v, or_none r = Ok v.
Proof. unfold no_zde. destruct r as [v|[]]; simpl; eauto. congruence. Qed.

Create HintDb zde.
#[local] Hint Resolve no_zde_Ok no_zde_getattr no_zde_arith no_zde_pow
  no_zde_or_none : zde.

Lemma area_no_zde (self : Beam) : no_zde (area self).
Proof.
  destruct self; unfold area, lit, v_add, v_sub, v_mul; auto 10 with zde.
  apply no_zde_bind; [auto 10 with zde|intros].
  apply no_zde_bind; [auto 10 with zde|intros]. auto with zde.
Qed.

Lemma squash_load_returns (self : Beam) : exists v, squash_load self = Ok v.
Proof.
  apply no_zde_returns, no_zde_arith; [apply no_zde_Ok | apply area_no_zde].
Qed.

Lemma is_sufficient_true_iff (self : Beam) (loading : value) :
  sufficient self loading <->
  exists strain sq bk,
    get_strain self loading = Ok strain /\
    squash_load self = Ok sq /\ v_ge sq loading = Ok true /\
    buckling_load self = Ok bk /\ v_ge bk loading = Ok true /\
    v_le strain (elongation (material self)) = Ok true.
Proof.
  unfold sufficient, is_sufficient. split.
  - destruct (get_strain self loading) as [s|[]]; simpl; try discriminate.
    destruct (squash_load self) as [sq|[]]; simpl; try discriminate.
    destruct (v_ge sq loading) as [[|]|[]] eqn:E1; simpl; try discriminate.
    destruct (buckling_load self) as [bk|[]]; simpl; try discriminate.
    destruct (v_ge bk loading) as [[|]|[]] eqn:E2; simpl; try discriminate.
    destruct (v_le s _) as [[|]|[]] eqn:E3; simpl; try discriminate.
    intros _. exists s, sq, bk. repeat split; assumption.
  - intros (s & sq & bk & -> & -> & H1 & -> & H2 & H3). simpl.
    rewrite H1. simpl. rewrite H2. simpl. rewrite H3. reflexivity.
Qed.

Lemma squash_load_num (self : Beam) (k : kind) (x : xnum) :
  squash_load self = Ok (VNum k x) -> exists a, num_of (area self) = Some a.
Proof.
  unfold squash_load, v_mul. intros H. apply or_none_num in H.
  apply bin_arith_num in H as (ka & a & kb & b & _ & -> & _). simpl. eauto.
Qed.

Lemma buckling_load_num (self : Beam) (k : kind) (x : xnum) :
  buckling_load self = Ok (VNum k x) ->
  exists ix iy, num_of (second_moment_of_area_xx self) = Some ix /\
                num_of (second_moment_of_area_yy self) = Some iy.
Proof.
  unfold buckling_load. intros H. apply or_none_num in H. revert H.
  destruct (second_moment_of_area_xx self) as [[|kx ix]|ex]; simpl; try discriminate;
    destruct (second_moment_of_area_yy self) as [[|ky iy]|ey]; simpl; try discriminate.
  eauto.
Qed.

(** A sufficient beam has a numeric area and numeric second moments. *)
Lemma sufficient_nums (self : Beam) (loading : value) :
  sufficient self loading ->
  exists a ix iy,
    num_of (area self) = Some a /\
    num_of (second_moment_of_area_xx self) = Some ix /\
    num_of (second_moment_of_area_yy self) = Some iy.
Proof.
  intros H. apply is_sufficient_true_iff in H
    as (s & sq & bk & _ & Hsq & Hc1 & Hbk & Hc2 & _).
  apply compare_with_true in Hc1 as (? & ? & ? & ? & _ & -> & _).
  apply compare_with_true in Hc2 as (? & ? & ? & ? & _ & -> & _).
  apply squash_load_num in Hsq as (a & Ha).
  apply buckling_load_num in Hbk as (ix & iy & Hx & Hy).
  now exists a, ix, iy.
Qed.

(** ** The comparison [get_new_best_beam] *)

(** A candidate that is not sufficient leaves the incumbent as it is. *)
Lemma get_new_best_beam_insufficient (self : Beam) (loading : value)
    (curr_best_beam : option Beam) (s : option bool) :
  is_sufficient self loading = Ok s -> truthy s = false ->
  get_new_best_beam self loading curr_best_beam = Ok curr_best_beam.
Proof.
  intros Hs Ht. unfold get_new_best_beam. rewrite Hs. simpl. now rewrite Ht.
Qed.

(** Unless the two areas are equal, the incumbent is returned: also when
    the candidate's area is the smaller one. *)
Lemma get_new_best_beam_areas_differ (self incumbent : Beam) (loading : value)
    (a ca : xnum) :
  sufficient self loading ->
  num_of (area self) = Some a -> num_of (area incumbent) = Some ca ->
  xeqb a ca = false ->
  get_new_best_beam self loading (Some incumbent) = Ok (Some incumbent).
Proof.
  intros Hs Ha Hca Hne. unfold get_new_best_beam. rewrite Hs. simpl.
  apply num_of_Some in Ha as [k1 ->], Hca as [k2 ->]. simpl.
  rewrite Hne. now destruct (xltb a ca).
Qed.

(** On equal areas the candidate wins exactly when both of its second
    moments are strictly greater. *)
Lemma get_new_best_beam_tie (self incumbent : Beam) (loading : value)
    (a ca Ix Iy best_Ix best_Iy : xnum) :
  sufficient self loading ->
  num_of (area self) = Some a -> num_of (area incumbent) = Some ca ->
  xeqb a ca = true ->
  num_of (second_moment_of_area_xx self) = Some Ix ->
  num_of (second_moment_of_area_yy self) = Some Iy ->
  num_of (second_moment_of_area_xx incumbent) = Some best_Ix ->
  num_of (second_moment_of_area_yy incumbent) = Some best_Iy ->
  get_new_best_beam self loading (Some incumbent)
  = Ok (Some (if xltb best_Ix Ix && xltb best_Iy Iy then self else incumbent)).
Proof.
  intros Hs Ha Hca Heq Hx Hy Hbx Hby. unfold get_new_best_beam. rewrite Hs. simpl.
  apply num_of_Some in Ha as [k1 ->], Hca as [k2 ->]. simpl.
  destruct (xeqb_not_lt _ _ Heq) as [-> _]. rewrite Heq.
  apply num_of_Some in Hx as [k3 ->], Hy as [k4 ->], Hbx as [k5 ->], Hby as [k6 ->].
  simpl. now destruct (xltb best_Ix Ix), (xltb best_Iy Iy).
Qed.

(** With no incumbent a sufficient candidate is adopted. *)
Lemma get_new_best_beam_first (self : Beam) (loading : value) :
  sufficient self loading ->
  get_new_best_beam self loading None = Ok (Some self).
Proof.
  intros Hs. destruct (sufficient_nums _ _ Hs) as (a & ix & iy & Ha & Hx & Hy).
  unfold get_new_best_beam. rewrite Hs. simpl.
  apply num_of_Some in Ha as [k1 ->], Hx as [k2 ->], Hy as [k3 ->]. simpl.
  rewrite !xltb_irrefl. simpl. now destruct (xeqb a a).
Qed.

(** What the comparison returns when the candidate's check does not raise
    and the incumbent, if any, is itself sufficient: the incumbent or
    the candidate, and a sufficient beam if it returns one. *)
Lemma get_new_best_beam_step (self : Beam) (loading : value)
    (curr_best_beam : option Beam) (s : option bool) :
  is_sufficient self loading = Ok s ->
  (forall c, curr_best_beam = Some c -> sufficient c loading) ->
  exists best,
    get_new_best_beam self loading curr_best_beam = Ok best /\
    (best = curr_best_beam \/ best = Some self /\ sufficient self loading) /\
    (truthy s = true -> best <> None).
Proof.
  intros Hs Hc. destruct (truthy s) eqn:Ht.
  - assert (Hsuf : sufficient self loading).
    { unfold sufficient. rewrite Hs. now destruct s as [[|]|]. }
    destruct curr_best_beam as [c|].
    + destruct (sufficient_nums _ _ Hsuf) as (a & ix & iy & Ha & Hx & Hy).
      destruct (sufficient_nums _ _ (Hc c eq_refl)) as (ca & cx & cy & Hca & Hcx & Hcy).
      destruct (xeqb a ca) eqn:Heq.
      * rewrite (get_new_best_beam_tie _ _ _ _ _ _ _ _ _ Hsuf Ha Hca Heq Hx Hy Hcx Hcy).
        eexists; split; [reflexivity|]. split; [|discriminate].
        destruct (xltb cx ix && xltb cy iy); auto.
      * rewrite (get_new_best_beam_areas_differ _ _ _ _ _ Hsuf Ha Hca Heq).
        eexists; split; [reflexivity|]. split; [auto|discriminate].
    + rewrite (get_new_best_beam_first _ _ Hsuf).
      eexists; split; [reflexivity|]. split; [auto|discriminate].
  - rewrite (get_new_best_beam_insufficient _ _ _ _ Hs Ht).
    eexists; split; [reflexivity|]. split; [auto|discriminate].
Qed.

(** ** When the derived properties return *)

Lemma no_zde_div (ra rb : result value) :
  no_zde ra -> no_zde rb ->
  (forall x y, ra = Ok (VNum Py x) -> rb = Ok (VNum Py y) -> xis0 y = false) ->
  no_zde (bin v_div ra rb).
Proof.
  unfold no_zde. intros Ha Hb H.
  destruct ra as [[|[] a]|ea], rb as [[|[] b]|eb]; simpl; try congruence.
  now rewrite (H a b).
Qed.

Lemma no_zde_div_lit (ra : result value) (z : Z) :
  no_zde ra -> z <> 0%Z -> no_zde (bin v_div ra (lit z)).
Proof.
  intros Ha Hz. apply no_zde_div; [assumption|apply no_zde_Ok|].
  intros x y _ E. inversion E. simpl.
  apply not_true_is_false. rewrite Qis0_true. unfold Qeq. simpl. lia.
Qed.

#[local] Hint Resolve no_zde_div_lit : zde.

Ltac zde_steps :=
  repeat first
    [ apply no_zde_Ok
    | apply no_zde_getattr
    | apply no_zde_div_lit; [|discriminate]
    | apply no_zde_arith
    | apply no_zde_pow
    | apply no_zde_bind; [|intros] ].

Lemma second_moment_of_area_xx_no_zde (self : Beam) :
  no_zde (second_moment_of_area_xx self).
Proof.
  destruct self; unfold second_moment_of_area_xx, v_add, v_sub, v_mul; zde_steps.
Qed.

Lemma second_moment_of_area_yy_no_zde (self : Beam) :
  no_zde (second_moment_of_area_yy self).
Proof.
  destruct self;
    unfold second_moment_of_area_yy, second_moment_of_area_xx, v_add, v_sub, v_mul;
    zde_steps.
Qed.

Lemma py_min_no_zde (a b : value) : no_zde (py_min a b).
Proof. unfold no_zde. destruct a, b; simpl; discriminate. Qed.

(** [buckling_load] returns whenever the length is a nonzero number. *)
Lemma buckling_load_returns (self : Beam) (k : kind) (l : Q) :
  length self = Ok (VNum k (Fin l)) -> ~ l == 0 ->
  exists v, buckling_load self = Ok v.
Proof.
  intros Hl Hnz. apply no_zde_returns.
  apply no_zde_bind.
  - apply no_zde_bind; [apply second_moment_of_area_xx_no_zde|intros].
    apply no_zde_bind; [apply second_moment_of_area_yy_no_zde|intros].
    apply py_min_no_zde.
  - intros min_I. rewrite Hl. apply no_zde_div.
    + unfold v_mul. zde_steps.
    + discriminate.
    + intros x y _ E. simpl in E. inversion E. simpl.
      apply not_true_is_false. rewrite Qis0_true. intros E0.
      apply Hnz. destruct (Qmult_integral _ _ E0); assumption.
Qed.

(** With a numpy area [get_strain] returns: both of its divisions are
    numpy's. *)
Lemma get_strain_np_returns (self : Beam) (loading : value) (a : xnum) :
  area self = Ok (VNum Np a) -> exists v, get_strain self loading = Ok v.
Proof.
  intros Ha. unfold get_strain. rewrite Ha.
  destruct loading as [|[] l]; simpl; eauto;
    destruct (modulus (material self)) as [|[] e]; simpl; eauto.
Qed.

Lemma compare_with_no_zde (f : xnum -> xnum -> bool) (a b : value) :
  no_zde (compare_with f a b).
Proof. destruct a, b; discriminate. Qed.

Lemma is_sufficient_returns (self : Beam) (loading strain bk : value) :
  get_strain self loading = Ok strain -> buckling_load self = Ok bk ->
  exists s, is_sufficient self loading = Ok s.
Proof.
  intros Hs Hb. unfold is_sufficient. rewrite Hs. simpl.
  destruct (squash_load_returns self) as [sq ->]. simpl.
  destruct (v_ge sq loading) as [[|]|[]] eqn:E1; simpl; eauto.
  - rewrite Hb. simpl.
    destruct (v_ge bk loading) as [[|]|[]] eqn:E2; simpl; eauto.
    + destruct (v_le strain _) as [c|[]] eqn:E3; simpl; eauto.
      now apply compare_with_no_zde in E3.
    + now apply compare_with_no_zde in E2.
  - now apply compare_with_no_zde in E1.
Qed.

(** ** The searches *)

Section ForEach.

Context {A S : Type}.
Variable P : S -> Prop.
Variable body : A -> S -> result S.

(** A loop whose body returns and keeps [P] returns and keeps [P]. *)
Lemma for_each_invariant (l : list A) :
  (forall a s, In a l -> P s -> exists s', body a s = Ok s' /\ P s') ->
  forall s, P s -> exists s', Part2.for_each l body s = Ok s' /\ P s'.
Proof.
  induction l as [|a l IH]; intros Hbody s Hs; simpl.
  - eauto.
  - destruct (Hbody a s (or_introl eq_refl) Hs) as (s1 & -> & Hs1). simpl.
    apply IH; [|assumption]. intros a' s' Hin. apply Hbody. now right.
Qed.

End ForEach.

Lemma selected_None (loading : value) : selected loading None.
Proof. intros c H. discriminate. Qed.

Lemma get_new_best_beam_selected (self : Beam) (loading : value)
    (best : option Beam) (s : option bool) :
  is_sufficient self loading = Ok s -> selected loading best ->
  exists best', get_new_best_beam self loading best = Ok best' /\
                selected loading best'.
Proof.
  intros Hs Hb.
  destruct (get_new_best_beam_step _ _ _ _ Hs Hb) as (best' & E & [E'|[E' Hsuf]] & _);
    exists best'; split; trivial; subst best'.
  - assumption.
  - intros c Hc. inversion Hc. now subst.
Qed.

(** Every beam a search builds has numpy dimensions and the configured
    length, so its check returns. *)
Lemma grid_beam_checks (self : Beam) (a : xnum) :
  area self = Ok (VNum Np a) -> length self = Ok Part2.length ->
  exists s, is_sufficient self Part2.loading = Ok s.
Proof.
  intros Ha Hl.
  destruct (get_strain_np_returns self Part2.loading a Ha) as [strain Hs].
  destruct (buckling_load_returns self Py (2000 * Part2.MILLI) Hl) as [bk Hb].
  { discriminate. }
  exact (is_sufficient_returns _ _ _ _ Hs Hb).
Qed.

Lemma selected_returns_sufficient (loading : value) (r : result (option Beam)) :
  (exists best, r = Ok best /\ selected loading best) ->
  returns_sufficient loading r.
Proof.
  intros (best & -> & Hsel). exists best. split; [reflexivity|].
  destruct best as [beam|]; [|exact I].
  pose proof (Hsel beam eq_refl) as Hsuf. split; [exact Hsuf|].
  apply is_sufficient_true_iff in Hsuf as (s & sq & bk & _ & Hsq & H1 & Hbk & H2 & _).
  exists sq, bk. repeat split; trivial.
  - apply compare_with_true in H1 as (k1 & x & k2 & y & -> & -> & H1).
    simpl. f_equal. apply xleb_not_lt. now symmetry.
  - apply compare_with_true in H2 as (k1 & x & k2 & y & -> & -> & H2).
    simpl. f_equal. apply xleb_not_lt. now symmetry.
Qed.


(** ** Which beam the comparison keeps *)

(** A sufficient candidate whose area is strictly smaller than the
    incumbent's is not adopted: the incumbent is returned. *)
Lemma get_new_best_beam_smaller_area (self incumbent : Beam) (loading : value)
    (a ca : value) :
  sufficient self loading ->
  area self = Ok a -> area incumbent = Ok ca -> v_lt a ca = Ok true ->
  get_new_best_beam self loading (Some incumbent) = Ok (Some incumbent).
Proof.
  intros Hs Ha Hca Hlt.
  apply compare_with_true in Hlt as (k1 & x & k2 & y & -> & -> & Hlt).
  apply (get_new_best_beam_areas_differ _ _ _ x y Hs).
  - now rewrite Ha.
  - now rewrite Hca.
  - symmetry in Hlt. now apply xltb_not_eq in Hlt.
Qed.

(** C1.  At two sufficient steel hollow rectangles, the 3 mm wall one of
    strictly smaller area than the 4 mm wall one: comparing the smaller
    against the larger as incumbent returns the larger, where the claim
    has the smaller win; in the other call direction the smaller, then
    incumbent, is returned. *)
Theorem smaller_area_candidate_is_not_adopted :
  let A := Examples.rhs_30x100x3 in
  let B := Examples.rhs_30x100x4 in
  let L := Examples.load_24kN in
  is_sufficient A L = Ok (Some true) /\
  is_sufficient B L = Ok (Some true) /\
  (a <- area A ;; b <- area B ;; v_lt a b) = Ok true /\
  get_new_best_beam A L (Some B) = Ok (Some B) /\
  get_new_best_beam B L (Some A) = Ok (Some A) /\
  A <> B.
Proof.
  repeat split; try (vm_compute; reflexivity). discriminate.
Qed.

(** C4.  For a sufficient candidate and an incumbent of exactly equal
    area whose second moments are comparable with the candidate's, the
    comparison returns the candidate when both of its second moments are
    strictly greater, and the incumbent when at most one of them is. *)
Theorem tie_break_on_equal_area (self incumbent : Beam) (loading : value)
    (a ca Ix Iy best_Ix best_Iy : value) (gx gy : bool) :
  sufficient self loading ->
  area self = Ok a -> area incumbent = Ok ca -> v_eq a ca = true ->
  second_moment_of_area_xx self = Ok Ix ->
  second_moment_of_area_yy self = Ok Iy ->
  second_moment_of_area_xx incumbent = Ok best_Ix ->
  second_moment_of_area_yy incumbent = Ok best_Iy ->
  v_gt Ix best_Ix = Ok gx -> v_gt Iy best_Iy = Ok gy ->
  (gx = true /\ gy = true ->
   get_new_best_beam self loading (Some incumbent) = Ok (Some self)) /\
  (gx = false \/ gy = false ->
   get_new_best_beam self loading (Some incumbent) = Ok (Some incumbent)).
Proof.
  intros Hs Ha Hca Heq Hx Hy Hbx Hby Hgx Hgy.
  destruct (sufficient_nums _ _ Hs) as (xa & _ & _ & Hna & _ & _).
  rewrite Ha in Hna. destruct a as [|ka xa']; [discriminate|].
  destruct ca as [|kc xc]; [discriminate|]. simpl in Heq.
  apply compare_with_true in Hgx as (k1 & bx & k2 & ix & -> & -> & ->).
  apply compare_with_true in Hgy as (k3 & by_ & k4 & iy & -> & -> & ->).
  assert (E : get_new_best_beam self loading (Some incumbent)
              = Ok (Some (if xltb bx ix && xltb by_ iy then self else incumbent))).
  { apply (get_new_best_beam_tie _ _ _ xa' xc ix iy bx by_ Hs); trivial.
    - now rewrite Ha.
    - now rewrite Hca.
    - now rewrite Hx.
    - now rewrite Hy.
    - now rewrite Hbx.
    - now rewrite Hby. }
  rewrite E. split.
  - intros [-> ->]. reflexivity.
  - intros [-> | ->]; [reflexivity|]. now rewrite andb_false_r.
Qed.

Lemma tie_break_on_equal_area_witness :
  get_new_best_beam Examples.stiff_section Examples.load_24kN
    (Some Examples.soft_section) = Ok (Some Examples.stiff_section).
Proof.
  apply (tie_break_on_equal_area Examples.stiff_section Examples.soft_section
           Examples.load_24kN
           (Examples.pyfloat (1 # 1000)) (Examples.pyfloat (1 # 1000))
           (Examples.pyfloat (2 # 1000000)) (Examples.pyfloat (2 # 1000000))
           (Examples.pyfloat (1 # 1000000)) (Examples.pyfloat (1 # 1000000))
           true true);
    try reflexivity; try (vm_compute; reflexivity).
  split; reflexivity.
Defined.

(** ** Folding a collection *)

Section Folding.

Variable loading : value.

(** Folding from a sufficient incumbent (or none) over beams whose
    checks return: the fold returns, what it returns is the incumbent or
    a beam of the list, is sufficient, and is absent exactly when there
    was no incumbent and no beam of the list is sufficient. *)
Lemma for_each_get_new_best_beam (beams : list Beam) :
  (forall b, In b beams -> exists s, is_sufficient b loading = Ok s) ->
  forall best, selected loading best ->
  exists r,
    Part2.for_each beams
      (fun candidate incumbent => get_new_best_beam candidate loading incumbent)
      best = Ok r /\
    selected loading r /\
    (r = best \/ exists b, r = Some b /\ In b beams) /\
    (r = None <-> best = None /\ forall b, In b beams -> ~ sufficient b loading).
Proof.
  induction beams as [|c beams IH]; intros Hret best Hbest; simpl.
  - exists best. repeat split; auto; tauto.
  - destruct (Hret c (or_introl eq_refl)) as [s Hs].
    destruct (get_new_best_beam_step _ _ _ _ Hs Hbest) as (b1 & -> & Hb1 & Hnn).
    simpl.
    assert (Hsel1 : selected loading b1).
    { destruct Hb1 as [->|[-> Hsuf]]; [assumption|].
      intros c' E. inversion E. now subst. }
    destruct (IH (fun b Hb => Hret b (or_intror Hb)) b1 Hsel1)
      as (r & -> & Hsel & Hfrom & Hnone).
    exists r. split; [reflexivity|]. split; [assumption|]. split.
    + destruct Hfrom as [->|(b & -> & Hin)].
      * destruct Hb1 as [->|[-> _]]; [now left|]. right. exists c. auto.
      * right. exists b. auto.
    + rewrite Hnone. split.
      * intros [-> Hl]. destruct Hb1 as [<-|[E _]]; [|discriminate].
        split; [reflexivity|]. intros b [<-|Hin]; [|now apply Hl].
        intros Hsuf. apply Hnn; [|reflexivity].
        unfold sufficient in Hsuf. rewrite Hs in Hsuf. now inversion Hsuf.
      * intros [-> Hl]. split; [|intros b Hb; apply Hl; now right].
        destruct Hb1 as [->|[_ Hsuf]]; [reflexivity|].
        exfalso. apply (Hl c); [now left|assumption].
Qed.

(** C6, amended.  For a load and a finite collection of beams on none of
    which [is_sufficient] raises, the fold in any order returns; it
    returns no beam exactly when no beam of the collection is
    sufficient, so in either order or in neither; and a beam it returns
    is a sufficient beam of the collection. *)
Theorem reduce_best_in_any_order (beams beams' : list Beam) :
  Permutation beams beams' ->
  (forall b, In b beams -> exists s, is_sufficient b loading = Ok s) ->
  exists r r',
    reduce_best loading beams = Ok r /\
    reduce_best loading beams' = Ok r' /\
    (r = None <-> forall b, In b beams -> ~ sufficient b loading) /\
    (r = None <-> r' = None) /\
    (forall b, r = Some b -> In b beams /\ sufficient b loading) /\
    (forall b, r' = Some b -> In b beams /\ sufficient b loading).
Proof.
  intros Hperm Hret.
  assert (Hret' : forall b, In b beams' -> exists s, is_sufficient b loading = Ok s).
  { intros b Hb. apply Hret. eapply Permutation_in; [symmetry|]; eassumption. }
  destruct (for_each_get_new_best_beam beams Hret None (selected_None _))
    as (r & E & Hsel & Hfrom & Hnone).
  destruct (for_each_get_new_best_beam beams' Hret' None (selected_None _))
    as (r' & E' & Hsel' & Hfrom' & Hnone').
  exists r, r'. repeat split; trivial.
  - intros Hr. now apply Hnone.
  - intros Hl. now apply Hnone.
  - intros Hr. apply Hnone'. split; [reflexivity|]. intros b Hb.
    apply Hnone; [assumption|]. eapply Permutation_in; [symmetry|]; eassumption.
  - intros Hr. apply Hnone. split; [reflexivity|]. intros b Hb.
    apply Hnone'; [assumption|]. eapply Permutation_in; eassumption.
  - subst r. destruct Hfrom as [E0|(b' & E0 & Hin)]; [discriminate|].
    inversion E0. now subst.
  - now apply Hsel.
  - subst r'. destruct Hfrom' as [E0|(b' & E0 & Hin)]; [discriminate|].
    inversion E0. subst. eapply Permutation_in; [symmetry|]; eassumption.
  - now apply Hsel'.
Qed.

End Folding.

(** C6, the claim as stated fails: two sufficient hollow rectangles of
    equal area, each stiffer than the other about one axis, folded in
    the two orders give two different beams. *)
Lemma reduce_best_depends_on_order :
  ~ (forall loading beams beams',
        Permutation beams beams' ->
        reduce_best loading beams = reduce_best loading beams').
Proof.
  intros H.
  specialize (H Examples.load_24kN
                [Examples.rhs_30x100x3; Examples.rhs_100x30x3]
                [Examples.rhs_100x30x3; Examples.rhs_30x100x3]
                (perm_swap _ _ _)).
  vm_compute in H. discriminate H.
Qed.

Lemma reduce_best_in_any_order_witness :
  exists r r',
    reduce_best Examples.load_24kN
      [Examples.rhs_30x100x3; Examples.rhs_100x30x3] = Ok r /\
    reduce_best Examples.load_24kN
      [Examples.rhs_100x30x3; Examples.rhs_30x100x3] = Ok r' /\
    (r = None <->
     forall b, In b [Examples.rhs_30x100x3; Examples.rhs_100x30x3] ->
               ~ sufficient b Examples.load_24kN) /\
    (r = None <-> r' = None) /\
    (forall b, r = Some b ->
       In b [Examples.rhs_30x100x3; Examples.rhs_100x30x3] /\
       sufficient b Examples.load_24kN) /\
    (forall b, r' = Some b ->
       In b [Examples.rhs_30x100x3; Examples.rhs_100x30x3] /\
       sufficient b Examples.load_24kN).
Proof.
  apply (reduce_best_in_any_order Examples.load_24kN
           [Examples.rhs_30x100x3; Examples.rhs_100x30x3]
           [Examples.rhs_100x30x3; Examples.rhs_30x100x3]).
  - apply perm_swap.
  - intros b [<-|[<-|[]]]; eexists; vm_compute; reflexivity.
Defined.

(** ** What [is_sufficient] returns *)

(** The three comparisons, left to right, once the strain and the two
    loads have been obtained. *)
Lemma is_sufficient_eval (self : Beam) (loading strain sq bk : value) :
  get_strain self loading = Ok strain ->
  squash_load self = Ok sq -> buckling_load self = Ok bk ->
  is_sufficient self loading =
  match v_ge sq loading with
  | Ok true =>
      match v_ge bk loading with
      | Ok true =>
          match v_le strain (elongation (material self)) with
          | Ok c => Ok (Some c)
          | Raise _ => Ok None
          end
      | Ok false => Ok (Some false)
      | Raise _ => Ok None
      end
  | Ok false => Ok (Some false)
  | Raise _ => Ok None
  end.
Proof.
  intros Hs Hsq Hbk. unfold is_sufficient. rewrite Hs, Hsq. simpl.
  destruct (v_ge sq loading) as [[|]|e1] eqn:E1; simpl; trivial.
  - rewrite Hbk. simpl.
    destruct (v_ge bk loading) as [[|]|e2] eqn:E2; simpl; trivial.
    + destruct (v_le strain _) as [c|e3] eqn:E3; simpl; trivial.
      destruct e3; trivial. now apply compare_with_no_zde in E3.
    + destruct e2; trivial. now apply compare_with_no_zde in E2.
  - destruct e1; trivial. now apply compare_with_no_zde in E1.
Qed.

(** Whatever is undefined among the quantities compared, the check does
    not come out true. *)
Lemma is_sufficient_undefined_falsy (self : Beam) (loading strain sq bk : value) :
  get_strain self loading = Ok strain ->
  squash_load self = Ok sq -> buckling_load self = Ok bk ->
  strain = VNone \/ sq = VNone \/ bk = VNone \/
  elongation (material self) = VNone \/ loading = VNone ->
  is_sufficient self loading = Ok None \/
  is_sufficient self loading = Ok (Some false).
Proof.
  intros Hs Hsq Hbk Hu. rewrite (is_sufficient_eval _ _ _ _ _ Hs Hsq Hbk).
  destruct sq as [|k1 x1], loading as [|k2 x2]; simpl; auto;
    destruct (xleb x2 x1); auto;
    destruct bk as [|k3 x3]; simpl; auto;
    destruct (xleb x2 x3); auto;
    destruct strain as [|k4 x4], (elongation (material self)) as [|k5 x5];
    simpl; auto.
  destruct Hu as [Hu|[Hu|[Hu|[Hu|Hu]]]]; discriminate.
Qed.

(** C3, the claim as stated fails: the buckling load of this section is
    undefined, yet the check returns [False], not the undefined value,
    because its squash load is already below the load. *)
Lemma is_sufficient_false_with_undefined_buckling_load :
  buckling_load Examples.thin_section = Ok VNone /\
  is_sufficient Examples.thin_section Examples.load_24kN = Ok (Some false) /\
  is_sufficient Examples.thin_section Examples.load_24kN <> Ok None.
Proof.
  repeat split; try (vm_compute; reflexivity). vm_compute. discriminate.
Qed.

(** C3, amended.  [is_sufficient] returns [True] exactly when the squash
    load and the buckling load are at least the load and the strain is
    at most the elongation; on numbers it returns the truth value of
    that conjunction.  When [get_strain] and [buckling_load] return and
    one of the quantities compared is undefined, it returns the
    undefined value if the comparison that meets the undefined quantity
    is reached, and [False] if a comparison before it already failed:
    never [True].  Its caller [get_new_best_beam] treats both results
    alike and keeps the incumbent. *)
Theorem is_sufficient_spec (self : Beam) (loading : value) :
  (is_sufficient self loading = Ok (Some true) <->
   exists strain sq bk,
     get_strain self loading = Ok strain /\
     squash_load self = Ok sq /\ v_ge sq loading = Ok true /\
     buckling_load self = Ok bk /\ v_ge bk loading = Ok true /\
     v_le strain (elongation (material self)) = Ok true) /\
  (forall ks s kq sq kb bk kl l ke e,
     get_strain self loading = Ok (VNum ks s) ->
     squash_load self = Ok (VNum kq sq) ->
     buckling_load self = Ok (VNum kb bk) ->
     loading = VNum kl l -> elongation (material self) = VNum ke e ->
     is_sufficient self loading = Ok (Some (xleb l sq && xleb l bk && xleb s e))) /\
  (forall strain sq bk,
     get_strain self loading = Ok strain ->
     squash_load self = Ok sq -> buckling_load self = Ok bk ->
     (sq = VNone \/ loading = VNone -> is_sufficient self loading = Ok None) /\
     (v_ge sq loading = Ok false -> is_sufficient self loading = Ok (Some false)) /\
     (v_ge sq loading = Ok true -> bk = VNone ->
      is_sufficient self loading = Ok None) /\
     (v_ge sq loading = Ok true -> v_ge bk loading = Ok false ->
      is_sufficient self loading = Ok (Some false)) /\
     (v_ge sq loading = Ok true -> v_ge bk loading = Ok true ->
      strain = VNone \/ elongation (material self) = VNone ->
      is_sufficient self loading = Ok None) /\
     (strain = VNone \/ sq = VNone \/ bk = VNone \/
      elongation (material self) = VNone \/ loading = VNone ->
      is_sufficient self loading = Ok None \/
      is_sufficient self loading = Ok (Some false))) /\
  (is_sufficient self loading = Ok None \/
   is_sufficient self loading = Ok (Some false) ->
   forall curr_best_beam,
     get_new_best_beam self loading curr_best_beam = Ok curr_best_beam).
Proof.
  split; [apply is_sufficient_true_iff|].
  split; [|split];
    [| |intros [H|H] c;
        exact (get_new_best_beam_insufficient _ _ _ _ H eq_refl)].
  - intros ks s kq sq kb bk kl l ke e Hs Hsq Hbk -> He.
    rewrite (is_sufficient_eval _ _ _ _ _ Hs Hsq Hbk), He. simpl.
    now destruct (xleb l sq), (xleb l bk).
  - intros strain sq bk Hs Hsq Hbk.
    pose proof (is_sufficient_eval _ _ _ _ _ Hs Hsq Hbk) as E.
    repeat split.
    + rewrite E. intros [-> | ->]; [now destruct loading | now destruct sq].
    + intros H. now rewrite E, H.
    + intros H ->. rewrite E, H. now destruct loading.
    + intros H1 H2. now rewrite E, H1, H2.
    + intros H1 H2 H. rewrite E, H1, H2.
      destruct H as [-> | ->]; [reflexivity | now destruct strain].
    + exact (is_sufficient_undefined_falsy _ _ _ _ _ Hs Hsq Hbk).
Qed.

(** ** The section formulas *)

(** In exact arithmetic the two expressions for the area of a circular
    hollow section return equal numbers on finite [r] and [t]: where
    they differ in binary64, they differ by rounding. *)
Lemma CHS_area_matches_annulus (material : Material) (length : value)
    (k1 k2 : kind) (r t : Q) :
  exists k x k' y,
    area (CHSBeam material length (VNum k1 (Fin r)) (VNum k2 (Fin t)))
      = Ok (VNum k (Fin x)) /\
    exact_annulus_area (VNum k1 (Fin r)) (VNum k2 (Fin t))
      = Ok (VNum k' (Fin y)) /\
    x == y /\
    v_eq (VNum k (Fin x)) (VNum k' (Fin y)) = true.
Proof.
  do 4 eexists. split; [reflexivity|]. split; [reflexivity|].
  assert (E : inject_Z 2 * r * t + - (t * t) == r * r + - ((r + - t) * (r + - t)))
    by ring.
  split.
  - now rewrite E.
  - simpl. apply Qeq_bool_iff. now rewrite E.
Qed.

(** ** Division by zero *)

Lemma is_sufficient_raises_with_get_strain (self : Beam) (loading : value) (e : exn) :
  get_strain self loading = Raise e -> is_sufficient self loading = Raise e.
Proof.
  intros H. destruct (or_none_not_type_error _ _ H) as [-> _].
  unfold is_sufficient. now rewrite H.
Qed.




(** ** Propagation of the undefined value *)

Lemma length_no_zde (self : Beam) : no_zde (length self).
Proof. destruct self; simpl; auto with zde. Qed.

Lemma or_none_arith_returns (f : xnum -> xnum -> xnum) (ra rb : result value) :
  no_zde ra -> no_zde rb -> exists v, or_none (bin (arith f) ra rb) = Ok v.
Proof. intros Ha Hb. now apply no_zde_returns, no_zde_arith. Qed.

Lemma volume_no_zde (self : Beam) : no_zde (volume self).
Proof.
  apply no_zde_or_none, no_zde_arith; [apply area_no_zde|apply length_no_zde].
Qed.

Lemma mass_no_zde (self : Beam) : no_zde (mass self).
Proof.
  apply no_zde_or_none, no_zde_arith; [apply volume_no_zde|apply no_zde_Ok].
Qed.

Lemma cost_no_zde (self : Beam) : no_zde (cost self).
Proof.
  apply no_zde_or_none, no_zde_arith; [apply mass_no_zde|apply no_zde_Ok].
Qed.

Lemma total_embodied_energy_no_zde (self : Beam) :
  no_zde (total_embodied_energy self).
Proof.
  apply no_zde_or_none, no_zde_arith; [apply mass_no_zde|apply no_zde_Ok].
Qed.

Lemma embodied_energy_cost_no_zde (self : Beam) :
  no_zde (embodied_energy_cost self).
Proof.
  apply no_zde_or_none, no_zde_arith;
    [apply total_embodied_energy_no_zde|apply no_zde_Ok].
Qed.

(** The properties computed without a division return. *)
Lemma cached_properties_return (self : Beam) :
  (exists v, volume self = Ok v) /\
  (exists v, mass self = Ok v) /\
  (exists v, cost self = Ok v) /\
  (exists v, total_embodied_energy self = Ok v) /\
  (exists v, embodied_energy_cost self = Ok v) /\
  (exists v, total_cost self = Ok v) /\
  (exists v, squash_load self = Ok v).
Proof.
  repeat split; try apply squash_load_returns; apply or_none_arith_returns;
    auto using area_no_zde, length_no_zde, volume_no_zde, mass_no_zde,
      cost_no_zde, total_embodied_energy_no_zde, embodied_energy_cost_no_zde,
      no_zde_Ok.
Qed.

(** [buckling_load] is undefined as soon as a second moment, the modulus
    or the length is: the division is not reached. *)
Lemma buckling_load_undefined (self : Beam) :
  num_of (second_moment_of_area_xx self) = None \/
  num_of (second_moment_of_area_yy self) = None \/
  modulus (material self) = VNone \/
  num_of (length self) = None ->
  buckling_load self = Ok VNone.
Proof.
  intros H. unfold buckling_load.
  pose proof (second_moment_of_area_xx_no_zde self) as Hx.
  pose proof (second_moment_of_area_yy_no_zde self) as Hy.
  pose proof (length_no_zde self) as Hl. unfold no_zde in *.
  destruct (second_moment_of_area_xx self) as [[|kx x]|[]]; simpl in *;
    trivial; try congruence;
    destruct (second_moment_of_area_yy self) as [[|ky y]|[]]; simpl in *;
    trivial; try congruence;
    destruct (modulus (material self)) as [|ke e]; simpl in *; trivial;
    destruct (length self) as [[|kl l]|[]]; simpl in *; trivial; try congruence;
    try (destruct (xltb y x); simpl; trivial);
    destruct H as [H|[H|[H|H]]]; discriminate.
Qed.


(** * Further properties of the searches and of the beam model *)

(** ** Loops over nested grids *)

Section ForEachLists.

Context {A B S : Type}.
Variable body : B -> S -> result S.

Lemma for_each_app (l1 l2 : list B) (s : S) :
  Part2.for_each (l1 ++ l2) body s
  = (s' <- Part2.for_each l1 body s ;; Part2.for_each l2 body s').
Proof.
  revert s. induction l1 as [|a l1 IH]; intros s; simpl; [reflexivity|].
  destruct (body a s) as [s1|e]; simpl; [apply IH|reflexivity].
Qed.

Lemma for_each_map (g : A -> B) (l : list A) (s : S) :
  Part2.for_each (map g l) body s = Part2.for_each l (fun a => body (g a)) s.
Proof.
  revert s. induction l as [|a l IH]; intros s; simpl; [reflexivity|].
  destruct (body (g a) s) as [s1|e]; simpl; [apply IH|reflexivity].
Qed.

Lemma for_each_flat_map (f : A -> list B) (l : list A) (s : S) :
  Part2.for_each (flat_map f l) body s
  = Part2.for_each l (fun a => Part2.for_each (f a) body) s.
Proof.
  revert s. induction l as [|a l IH]; intros s; simpl; [reflexivity|].
  rewrite for_each_app.
  destruct (Part2.for_each (f a) body s) as [s1|e]; simpl; [apply IH|reflexivity].
Qed.

End ForEachLists.

Lemma for_each_ext {A S : Type} (body body' : A -> S -> result S) (l : list A) (s : S) :
  (forall a s, body a s = body' a s) ->
  Part2.for_each l body s = Part2.for_each l body' s.
Proof.
  intros H. revert s. induction l as [|a l IH]; intros s; simpl; [reflexivity|].
  rewrite H. destruct (body' a s) as [s1|e]; simpl; [apply IH|reflexivity].
Qed.

Lemma get_best_beams_as_reductions (material : Material) :
  Part2.get_best_I_beam material = reduce_best Part2.loading (I_grid material) /\
  Part2.get_best_RHS_beam material = reduce_best Part2.loading (RHS_grid material) /\
  Part2.get_best_CHS_beam material = reduce_best Part2.loading (CHS_grid material).
Proof.
  unfold reduce_best, I_grid, RHS_grid, CHS_grid,
    Part2.get_best_I_beam, Part2.get_best_RHS_beam, Part2.get_best_CHS_beam.
  repeat split;
    repeat (rewrite for_each_flat_map; apply for_each_ext; intros);
    now rewrite for_each_map.
Qed.

(** ** What the comparison and the fold keep *)

(** X3.  Whatever the incumbent, [get_new_best_beam], when it returns,
    returns the incumbent it was given or the candidate itself, and the
    candidate only if it is sufficient. *)
Theorem get_new_best_beam_returns_incumbent_or_self (self : Beam) (loading : value)
    (curr_best_beam best : option Beam) :
  get_new_best_beam self loading curr_best_beam = Ok best ->
  best = curr_best_beam \/ (best = Some self /\ sufficient self loading).
Proof.
  unfold get_new_best_beam, sufficient.
  destruct (is_sufficient self loading) as [[[|]|]|e]; simpl;
    try (intros H; inversion H; auto; fail).
  set (c := match curr_best_beam with Some c => c | None => self end).
  assert (Hc : Some c = curr_best_beam \/ Some c = Some self)
    by (destruct curr_best_beam; auto).
  assert (Hout : forall b, b = c \/ b = self ->
            Some b = curr_best_beam \/ (Some b = Some self /\ Ok (Some true)
              = @Ok (option bool) (Some true))).
  { intros b [->| ->]; [destruct Hc as [Hc|Hc]; [auto|right; auto]|right; auto]. }
  destruct (area self) as [a|]; simpl; [|discriminate].
  destruct (area c) as [ca|]; simpl; [|discriminate].
  destruct (v_lt a ca) as [[|]|]; simpl; try discriminate;
    try (intros H; inversion H; apply Hout; auto; fail).
  destruct (v_eq a ca); try (intros H; inversion H; apply Hout; auto; fail).
  destruct (second_moment_of_area_xx self) as [ix|]; simpl; [|discriminate].
  destruct (second_moment_of_area_xx c) as [bx|]; simpl; [|discriminate].
  destruct (second_moment_of_area_yy self) as [iy|]; simpl; [|discriminate].
  destruct (second_moment_of_area_yy c) as [by_|]; simpl; [|discriminate].
  destruct (v_gt ix bx) as [[|]|]; simpl; try discriminate;
    try (intros H; inversion H; apply Hout; auto; fail).
  destruct (v_gt iy by_) as [[|]|]; simpl; try discriminate;
    intros H; inversion H; apply Hout; auto.
Qed.

Lemma get_new_best_beam_returns_incumbent_or_self_witness :
  Some Examples.rhs_30x100x4 = Some Examples.rhs_30x100x4 \/
  (Some Examples.rhs_30x100x4 = Some Examples.rhs_30x100x3 /\
   sufficient Examples.rhs_30x100x3 Examples.load_24kN).
Proof.
  apply (get_new_best_beam_returns_incumbent_or_self Examples.rhs_30x100x3
           Examples.load_24kN (Some Examples.rhs_30x100x4)).
  vm_compute. reflexivity.
Defined.

(** X4.  Comparing a beam with itself as incumbent returns it, whenever
    its check returns: the comparison is idempotent. *)
Theorem get_new_best_beam_idempotent (self : Beam) (loading : value) (s : option bool) :
  is_sufficient self loading = Ok s ->
  get_new_best_beam self loading (Some self) = Ok (Some self).
Proof.
  intros Hs. destruct (truthy s) eqn:Ht.
  - assert (Hsuf : sufficient self loading).
    { unfold sufficient. rewrite Hs. now destruct s as [[|]|]. }
    destruct (sufficient_nums _ _ Hsuf) as (a & ix & iy & Ha & Hx & Hy).
    destruct (xeqb a a) eqn:E.
    + rewrite (get_new_best_beam_tie _ _ _ _ _ _ _ _ _ Hsuf Ha Ha E Hx Hy Hx Hy).
      now destruct (xltb ix ix && xltb iy iy).
    + apply (get_new_best_beam_areas_differ _ _ _ _ _ Hsuf Ha Ha E).
  - apply (get_new_best_beam_insufficient _ _ _ _ Hs Ht).
Qed.

Lemma get_new_best_beam_idempotent_witness :
  get_new_best_beam Examples.rhs_30x100x3 Examples.load_24kN
    (Some Examples.rhs_30x100x3) = Ok (Some Examples.rhs_30x100x3).
Proof.
  apply (get_new_best_beam_idempotent _ _ (Some true)). vm_compute. reflexivity.
Defined.

Lemma xeqb_trans (a b c : xnum) :
  xeqb a b = true -> xeqb b c = true -> xeqb a c = true.
Proof.
  destruct a, b, c; simpl; trivial; try discriminate.
  rewrite !Qeq_bool_iff. intros -> ->. reflexivity.
Qed.

(** The area of a sufficient beam is not [nan]: it equals itself. *)
Lemma sufficient_area_eq_itself (self : Beam) (loading : value) (a : xnum) :
  sufficient self loading -> num_of (area self) = Some a -> xeqb a a = true.
Proof.
  intros Hs Ha. apply is_sufficient_true_iff in Hs
    as (s & sq & bk & _ & Hsq & Hc1 & _).
  apply compare_with_true in Hc1 as (k1 & l & k2 & x & _ & -> & Hc1).
  unfold squash_load, v_mul in Hsq. apply or_none_num in Hsq.
  apply bin_arith_num in Hsq as (ky & y & ka & a' & _ & Ha' & _ & ->).
  rewrite Ha' in Ha. simpl in Ha. inversion Ha. subst a'.
  destruct a; simpl; trivial.
  - apply Qeq_bool_iff. reflexivity.
  - destruct y, l; discriminate.
Qed.

Lemma is_sufficient_true_spec (loading : value) (self : Beam) :
  is_sufficient_true loading self = true <-> sufficient self loading.
Proof.
  unfold is_sufficient_true, sufficient.
  destruct (is_sufficient self loading) as [[[|]|]|e]; simpl; split;
    congruence.
Qed.

Section FoldKeepsArea.

Variable loading : value.

(** From an incumbent on, the fold keeps a sufficient beam of the
    incumbent's area. *)
Lemma for_each_keeps_area (beams : list Beam) :
  (forall b, In b beams -> exists s, is_sufficient b loading = Ok s) ->
  forall c, sufficient c loading ->
  exists b,
    Part2.for_each beams
      (fun candidate incumbent => get_new_best_beam candidate loading incumbent)
      (Some c) = Ok (Some b) /\
    (b = c \/ In b beams) /\ sufficient b loading /\ same_area b c.
Proof.
  induction beams as [|x beams IH]; intros Hret c Hc; simpl.
  - exists c. repeat split; auto.
    destruct (sufficient_nums _ _ Hc) as (a & _ & _ & Ha & _).
    exists a, a. repeat split; trivial. exact (sufficient_area_eq_itself _ _ _ Hc Ha).
  - destruct (Hret x (or_introl eq_refl)) as [s Hs].
    assert (Hstep : exists b1,
              get_new_best_beam x loading (Some c) = Ok (Some b1) /\
              (b1 = c \/ b1 = x) /\ sufficient b1 loading /\ same_area b1 c).
    { destruct (sufficient_nums _ _ Hc) as (ca & cx & cy & Hca & Hcx & Hcy).
      assert (Hcc : same_area c c).
      { exists ca, ca. repeat split; trivial.
        exact (sufficient_area_eq_itself _ _ _ Hc Hca). }
      destruct (truthy s) eqn:Ht.
      - assert (Hsuf : sufficient x loading).
        { unfold sufficient. rewrite Hs. now destruct s as [[|]|]. }
        destruct (sufficient_nums _ _ Hsuf) as (a & ix & iy & Ha & Hx & Hy).
        destruct (xeqb a ca) eqn:Heq.
        + rewrite (get_new_best_beam_tie _ _ _ _ _ _ _ _ _
                     Hsuf Ha Hca Heq Hx Hy Hcx Hcy).
          destruct (xltb cx ix && xltb cy iy).
          * exists x. repeat split; auto. now exists a, ca.
          * exists c. repeat split; auto.
        + rewrite (get_new_best_beam_areas_differ _ _ _ _ _ Hsuf Ha Hca Heq).
          exists c. repeat split; auto.
      - rewrite (get_new_best_beam_insufficient _ _ _ _ Hs Ht).
        exists c. repeat split; auto. }
    destruct Hstep as (b1 & -> & Hfrom1 & Hsuf1 & Hsame1). simpl.
    destruct (IH (fun b Hb => Hret b (or_intror Hb)) b1 Hsuf1)
      as (b & -> & Hfrom & Hsuf & Hsame).
    exists b. split; [reflexivity|]. split; [|split; [assumption|]].
    + destruct Hfrom as [->|Hin]; [|auto].
      destruct Hfrom1 as [->| ->]; auto.
    + destruct Hsame as (a & a1 & Ha & Ha1 & E).
      destruct Hsame1 as (a1' & ac & Ha1' & Hac & E').
      rewrite Ha1 in Ha1'. inversion Ha1'. subst a1'.
      exists a, ac. repeat split; trivial. exact (xeqb_trans _ _ _ E E').
Qed.

Lemma reduce_best_first_area (beams : list Beam) :
  (forall b, In b beams -> exists s, is_sufficient b loading = Ok s) ->
  exists r,
    reduce_best loading beams = Ok r /\
    match first_sufficient loading beams with
    | None => r = None
    | Some f =>
        exists b, r = Some b /\ In b beams /\ sufficient b loading /\ same_area b f
    end.
Proof.
  unfold reduce_best, first_sufficient.
  induction beams as [|x beams IH]; intros Hret; simpl.
  - exists None. auto.
  - destruct (Hret x (or_introl eq_refl)) as [s Hs].
    destruct (is_sufficient_true loading x) eqn:Hx.
    + apply is_sufficient_true_spec in Hx.
      rewrite (get_new_best_beam_first _ _ Hx). simpl.
      destruct (for_each_keeps_area beams (fun b Hb => Hret b (or_intror Hb)) x Hx)
        as (b & -> & Hfrom & Hsuf & Hsame).
      exists (Some b). split; [reflexivity|]. exists b.
      repeat split; trivial. destruct Hfrom as [->|Hin]; auto.
    + assert (Ht : truthy s = false).
      { unfold is_sufficient_true in Hx. now rewrite Hs in Hx. }
      rewrite (get_new_best_beam_insufficient _ _ _ _ Hs Ht). simpl.
      destruct (IH (fun b Hb => Hret b (or_intror Hb))) as (r & -> & Hr).
      exists r. split; [reflexivity|].
      destruct (find (is_sufficient_true loading) beams) as [f|]; [|assumption].
      destruct Hr as (b & -> & Hin & Hsuf & Hsame). exists b. auto.
Qed.

(** X5.  Folding a collection on which no check raises: if no beam is
    sufficient the fold returns no beam; otherwise it returns a
    sufficient beam of the collection whose area equals the area of the
    first sufficient beam of the collection.  A later beam is kept only
    on an exact tie of areas, so a later beam of smaller area is never
    the result. *)
Theorem reduce_best_keeps_the_first_area (beams : list Beam) :
  (forall b, In b beams -> exists s, is_sufficient b loading = Ok s) ->
  exists r,
    reduce_best loading beams = Ok r /\
    match first_sufficient loading beams with
    | None => r = None
    | Some f =>
        exists b, r = Some b /\ In b beams /\ sufficient b loading /\ same_area b f
    end.
Proof. apply reduce_best_first_area. Qed.

End FoldKeepsArea.

Lemma reduce_best_keeps_the_first_area_witness :
  exists r,
    reduce_best Examples.load_24kN [Examples.rhs_30x100x4; Examples.rhs_30x100x3]
      = Ok r /\
    match first_sufficient Examples.load_24kN
            [Examples.rhs_30x100x4; Examples.rhs_30x100x3] with
    | None => r = None
    | Some f =>
        exists b, r = Some b /\
          In b [Examples.rhs_30x100x4; Examples.rhs_30x100x3] /\
          sufficient b Examples.load_24kN /\ same_area b f
    end.
Proof.
  apply (reduce_best_keeps_the_first_area Examples.load_24kN
           [Examples.rhs_30x100x4; Examples.rhs_30x100x3]).
  intros b [<-|[<-|[]]]; eexists; vm_compute; reflexivity.
Defined.

(** The check of every beam of a grid returns. *)
Lemma grid_checks_return (material : Material) (beam : Beam) :
  In beam (I_grid material) \/ In beam (RHS_grid material) \/
  In beam (CHS_grid material) ->
  exists s, is_sufficient beam Part2.loading = Ok s.
Proof.
  unfold I_grid, RHS_grid, CHS_grid.
  intros [H|[H|H]];
    repeat (apply in_flat_map in H as (? & _ & H));
    apply in_map_iff in H as (? & <- & _);
    eapply grid_beam_checks; reflexivity.
Qed.

Section FiniteSections.

Variable material : Material.
Variable length : value.

Lemma RHS_finite (kb kh kt : kind) (b h t : Q) :
  let beam := RHSBeam material length (VNum kb (Fin b)) (VNum kh (Fin h))
                (VNum kt (Fin t)) in
  exists k1 k2 k3,
    area beam = Ok (VNum k1 (Fin (b * h - (b - 2 * t) * (h - 2 * t)))) /\
    second_moment_of_area_xx beam
    = Ok (VNum k2 (Fin (b * (h * (h * h)) / 12
                        - (b - 2 * t) * ((h - 2 * t) * ((h - 2 * t) * (h - 2 * t))) / 12))) /\
    second_moment_of_area_yy beam
    = Ok (VNum k3 (Fin (h * (b * (b * b)) / 12
                        - (h - 2 * t) * ((b - 2 * t) * ((b - 2 * t) * (b - 2 * t))) / 12))).
Proof. destruct kb, kh, kt; do 3 eexists; repeat split; reflexivity. Qed.

End FiniteSections.

(** ** Sufficiency and the load *)

Lemma xleb_Fin_le (p q : Q) (x : xnum) :
  xleb (Fin p) x = true -> q <= p -> xleb (Fin q) x = true.
Proof.
  unfold xleb. destruct x as [r| | |]; simpl; trivial.
  intros H Hqp. apply orb_true_iff in H. apply orb_true_iff.
  destruct (Qlt_le_dec q r) as [Hlt|Hle].
  - left. now apply Qltb_true.
  - right. apply Qeq_bool_iff. destruct H as [H|H].
    + apply Qltb_true in H. lra.
    + apply Qeq_bool_iff in H. lra.
Qed.

(** The strain of a beam with a finite nonzero area and modulus. *)
Lemma get_strain_finite (self : Beam) (kl ka ke : kind) (l a e : Q) :
  area self = Ok (VNum ka (Fin a)) ->
  modulus (material self) = VNum ke (Fin e) ->
  ~ a == 0 -> ~ e == 0 ->
  exists k, get_strain self (VNum kl (Fin l)) = Ok (VNum k (Fin (l / a / e))).
Proof.
  intros Ha He Na Ne. unfold get_strain. rewrite Ha, He.
  apply Qeq_bool_false in Na, Ne.
  destruct kl, ka, ke; simpl; unfold Qis0; rewrite ?Na; simpl;
    unfold Qis0; rewrite ?Ne; simpl; eexists; reflexivity.
Qed.

Lemma strain_monotone (l l' a e : Q) :
  0 < a -> 0 < e -> l' <= l -> l' / a / e <= l / a / e.
Proof.
  intros Ha He Hl. unfold Qdiv.
  pose proof (Qinv_lt_0_compat a Ha) as Hia.
  pose proof (Qinv_lt_0_compat e He) as Hie.
  assert (H : l' * / a <= l * / a) by nra. nra.
Qed.



(** ** A hollow rectangle and its quarter turn *)

(** X16.  A sufficient hollow rectangle compared with the same section
    turned by a quarter (breadth and height exchanged) as incumbent
    never replaces it: the areas tie and neither beam is stiffer about
    both axes. *)
Theorem rotated_RHS_is_kept (material : Material) (length loading : value)
    (kb kh kt : kind) (b h t : Q) :
  let beam := RHSBeam material length (VNum kb (Fin b)) (VNum kh (Fin h))
                (VNum kt (Fin t)) in
  let turned := RHSBeam material length (VNum kh (Fin h)) (VNum kb (Fin b))
                  (VNum kt (Fin t)) in
  sufficient beam loading ->
  get_new_best_beam beam loading (Some turned) = Ok (Some turned).
Proof.
  intros beam turned Hs.
  destruct (RHS_finite material length kb kh kt b h t) as (k1 & k2 & k3 & Ea & Ex & Ey).
  destruct (RHS_finite material length kh kb kt h b t) as (k4 & k5 & k6 & Ea' & Ex' & Ey').
  fold beam in Ea, Ex, Ey. fold turned in Ea', Ex', Ey'.
  erewrite (get_new_best_beam_tie beam turned loading _ _ _ _ _ _ Hs);
    [| rewrite Ea; reflexivity | rewrite Ea'; reflexivity |
     | rewrite Ex; reflexivity | rewrite Ey; reflexivity
     | rewrite Ex'; reflexivity | rewrite Ey'; reflexivity ].
  - match goal with |- context [xltb ?u ?v && xltb ?v ?u] =>
      destruct (xltb u v) eqn:E; [rewrite (xltb_asym _ _ E)|]; reflexivity end.
  - simpl. apply Qeq_bool_iff. ring.
Qed.

Lemma rotated_RHS_is_kept_witness :
  get_new_best_beam Examples.rhs_30x100x3 Examples.load_24kN
    (Some Examples.rhs_100x30x3) = Ok (Some Examples.rhs_100x30x3).
Proof.
  apply (rotated_RHS_is_kept Examples.steel (Examples.pyfloat 2) Examples.load_24kN
           Py Py Py (3 # 100) (1 # 10) (3 # 1000)).
  vm_compute. reflexivity.
Defined.

(** ** The driver *)

Lemma reduction_result_from_grid (material : Material) (grid : list Beam) :
  (forall b, In b grid -> exists s, is_sufficient b Part2.loading = Ok s) ->
  exists r, reduce_best Part2.loading grid = Ok r /\
    forall b, r = Some b -> sufficient b Part2.loading /\ In b grid.
Proof.
  intros Hret. unfold reduce_best.
  destruct (for_each_get_new_best_beam Part2.loading grid Hret None (selected_None _))
    as (r & E & Hsel & Hfrom & _).
  exists r. split; [exact E|].
  intros b ->. split; [exact (Hsel b eq_refl)|].
  destruct Hfrom as [Hfrom|(b' & Hb' & Hin)]; [discriminate|].
  inversion Hb'. subst b'. exact Hin.
Qed.

(** A search returns, and returns no beam or a sufficient beam of its
    grid. *)
Lemma search_result_from_grid (material : Material) :
  (exists r, Part2.get_best_I_beam material = Ok r /\
     forall b, r = Some b ->
       sufficient b Part2.loading /\ In b (I_grid material)) /\
  (exists r, Part2.get_best_RHS_beam material = Ok r /\
     forall b, r = Some b ->
       sufficient b Part2.loading /\ In b (RHS_grid material)) /\
  (exists r, Part2.get_best_CHS_beam material = Ok r /\
     forall b, r = Some b ->
       sufficient b Part2.loading /\ In b (CHS_grid material)).
Proof.
  destruct (get_best_beams_as_reductions material) as (-> & -> & ->).
  split; [|split]; apply (reduction_result_from_grid material); intros b Hb;
    apply (grid_checks_return material);
    [left | right; left | right; right]; exact Hb.
Qed.

Lemma Forall_append_if_found (P : Beam -> Prop) (best : list Beam)
    (found : option Beam) :
  Forall P best -> (forall b, found = Some b -> P b) ->
  Forall P (Driver.append_if_found best found) /\
  (List.length (Driver.append_if_found best found) <= S (List.length best))%nat.
Proof.
  intros Hb Hf. destruct found as [b|]; simpl.
  - split; [|rewrite length_app; simpl; lia].
    apply Forall_app. split; [assumption|]. constructor; [now apply Hf|constructor].
  - split; [assumption|lia].
Qed.

Lemma best_beams_from (rows0 rows : list Driver.table_row)
    (Is Rs Cs : list Beam) :
  (forall row, In row rows -> In row rows0) ->
  Forall (Driver.kept_from I_grid rows0) Is ->
  Forall (Driver.kept_from RHS_grid rows0) Rs ->
  Forall (Driver.kept_from CHS_grid rows0) Cs ->
  exists Is' Rs' Cs',
    Part2.for_each rows
      (fun row '(best_I_beams, best_RHS_beams, best_CHS_beams) =>
         let material := Driver.material_of_row row in
         best_I_beam <- Part2.get_best_I_beam material ;;
         let best_I_beams := Driver.append_if_found best_I_beams best_I_beam in
         best_RHS_beam <- Part2.get_best_RHS_beam material ;;
         let best_RHS_beams := Driver.append_if_found best_RHS_beams best_RHS_beam in
         best_CHS_beam <- Part2.get_best_CHS_beam material ;;
         let best_CHS_beams := Driver.append_if_found best_CHS_beams best_CHS_beam in
         Ok (best_I_beams, best_RHS_beams, best_CHS_beams))
      (Is, Rs, Cs) = Ok (Is', Rs', Cs') /\
    Forall (Driver.kept_from I_grid rows0) Is' /\
    Forall (Driver.kept_from RHS_grid rows0) Rs' /\
    Forall (Driver.kept_from CHS_grid rows0) Cs' /\
    (List.length Is' <= List.length Is + List.length rows)%nat /\
    (List.length Rs' <= List.length Rs + List.length rows)%nat /\
    (List.length Cs' <= List.length Cs + List.length rows)%nat.
Proof.
  revert Is Rs Cs. induction rows as [|row rows IH]; intros Is Rs Cs Hsub HI HR HC.
  - exists Is, Rs, Cs. simpl. repeat split; trivial; lia.
  - cbn [Part2.for_each].
    destruct (search_result_from_grid (Driver.material_of_row row))
      as ((rI & -> & HrI) & (rR & -> & HrR) & (rC & -> & HrC)).
    cbn [bind].
    assert (Hrow : In row rows0) by (apply Hsub; left; reflexivity).
    destruct (Forall_append_if_found _ Is rI HI) as [HI' LI].
    { intros b Hb. destruct (HrI b Hb) as [H1 H2].
      split; [exact H1|]. exists row. split; [exact Hrow|exact H2]. }
    destruct (Forall_append_if_found _ Rs rR HR) as [HR' LR].
    { intros b Hb. destruct (HrR b Hb) as [H1 H2].
      split; [exact H1|]. exists row. split; [exact Hrow|exact H2]. }
    destruct (Forall_append_if_found _ Cs rC HC) as [HC' LC].
    { intros b Hb. destruct (HrC b Hb) as [H1 H2].
      split; [exact H1|]. exists row. split; [exact Hrow|exact H2]. }
    destruct (IH _ _ _ (fun r Hr => Hsub r (or_intror Hr)) HI' HR' HC')
      as (Is' & Rs' & Cs' & E & GI & GR & GC & L1 & L2 & L3).
    exists Is', Rs', Cs'. cbn [List.length] in *.
    split; [exact E|]. split; [exact GI|]. split; [exact GR|].
    split; [exact GC|]. split; [lia|]. split; lia.
Qed.

Lemma best_beams_kept (rows : list Driver.table_row) :
  exists best_I_beams best_RHS_beams best_CHS_beams,
    Driver.best_beams rows = Ok (best_I_beams, best_RHS_beams, best_CHS_beams) /\
    Forall (Driver.kept_from I_grid rows) best_I_beams /\
    Forall (Driver.kept_from RHS_grid rows) best_RHS_beams /\
    Forall (Driver.kept_from CHS_grid rows) best_CHS_beams /\
    (List.length best_I_beams <= List.length rows)%nat /\
    (List.length best_RHS_beams <= List.length rows)%nat /\
    (List.length best_CHS_beams <= List.length rows)%nat.
Proof.
  unfold Driver.best_beams.
  destruct (best_beams_from rows rows [] [] [] (fun r H => H)
              (Forall_nil _) (Forall_nil _) (Forall_nil _))
    as (Is & Rs & Cs & E & GI & GR & GC & L1 & L2 & L3).
  exists Is, Rs, Cs. repeat split; trivial.
Qed.

(** ** The output rows *)

Lemma cells_return (items : list (result value)) :
  Forall (fun item => exists v, item = Ok v) items ->
  exists row, Driver.cells items = Ok row /\
              List.length row = List.length items.
Proof.
  induction 1 as [|item items [v ->] _ (row & E & L)]; simpl.
  - now exists [].
  - rewrite E. simpl. eexists. split; [reflexivity|]. simpl. now rewrite L.
Qed.

(** A number over a nonzero Python constant. *)
Lemma div_by_constant (r : result value) (x : xnum) (c : Q) :
  num_of r = Some x -> Qis0 c = false ->
  exists v, bin v_div r (Ok (VNum Py (Fin c))) = Ok v.
Proof.
  intros Hr Hc. apply num_of_Some in Hr as [k ->]. simpl.
  destruct k; simpl; rewrite ?Hc; eauto.
Qed.

(** What a sufficient beam provides for its row. *)
Lemma sufficient_numbers (self : Beam) (loading : value) :
  sufficient self loading ->
  exists a ix iy bk sq strain l,
    num_of (area self) = Some a /\
    num_of (second_moment_of_area_xx self) = Some ix /\
    num_of (second_moment_of_area_yy self) = Some iy /\
    num_of (buckling_load self) = Some bk /\
    num_of (squash_load self) = Some sq /\
    get_strain self loading = Ok strain /\
    num_of (length self) = Some l.
Proof.
  intros H. destruct (sufficient_nums _ _ H) as (a & ix & iy & Ha & Hx & Hy).
  apply is_sufficient_true_iff in H
    as (s & sq & bk & Hs & Hsq & Hc1 & Hbk & Hc2 & _).
  apply compare_with_true in Hc1 as (? & ? & ? & xsq & _ & -> & _).
  apply compare_with_true in Hc2 as (? & ? & ? & xbk & _ & -> & _).
  assert (Hl : exists l, num_of (length self) = Some l).
  { destruct (num_of (length self)) as [l|] eqn:El; [eauto|].
    rewrite buckling_load_undefined in Hbk by auto. discriminate. }
  destruct Hl as [l Hl].
  exists a, ix, iy, xbk, xsq, s, l. rewrite Hbk, Hsq. repeat split; trivial.
Qed.

Lemma total_embodied_energy_number (self : Beam) (a l : xnum) (kd ke : kind) (d e : xnum) :
  num_of (area self) = Some a -> num_of (length self) = Some l ->
  density (material self) = VNum kd d ->
  energy_density (material self) = VNum ke e ->
  exists x, num_of (total_embodied_energy self) = Some x.
Proof.
  intros Ha Hl Hd He. apply num_of_Some in Ha as [ka Ha], Hl as [kl Hl].
  unfold total_embodied_energy, mass, volume. rewrite Ha, Hl, Hd, He. simpl. eauto.
Qed.

Ltac row_item :=
  first
    [ eassumption
    | eexists; eassumption
    | eapply div_by_constant; [eassumption | reflexivity]
    | eapply div_by_constant; [reflexivity | reflexivity] ].

Ltac row_returns :=
  unfold Driver.I_beam_row, Driver.RHS_beam_row, Driver.CHS_beam_row,
    Driver.named_row;
  change (Ok Driver.MILLI [^] 2)
    with (@Ok value (VNum Py (Fin (Part2.MILLI * Part2.MILLI))));
  change (Ok Driver.MILLI [^] 4)
    with (@Ok value (VNum Py (Fin (Part2.MILLI
            * (Part2.MILLI * (Part2.MILLI * Part2.MILLI))))));
  match goal with
  | |- exists row, (rest <- Driver.cells ?items ;; _) = Ok row /\ _ =>
      let H := fresh in
      assert (H : Forall (fun item => exists v, item = Ok v) items)
        by (repeat (constructor; [row_item|]); constructor);
      destruct (cells_return items H) as (rest & -> & L);
      simpl; eexists; split; [reflexivity|]; simpl in *; now rewrite L
  end.

Lemma rows_return (beam : Beam) (kd ke : kind) (d e : xnum) :
  sufficient beam Part2.loading ->
  density (material beam) = VNum kd d ->
  energy_density (material beam) = VNum ke e ->
  match beam with
  | IBeam _ _ _ _ _ _ =>
      exists row, Driver.I_beam_row beam = Ok row /\ List.length row = 15%nat
  | RHSBeam _ _ _ _ _ =>
      exists row, Driver.RHS_beam_row beam = Ok row /\ List.length row = 14%nat
  | CHSBeam _ _ _ _ =>
      exists row, Driver.CHS_beam_row beam = Ok row /\ List.length row = 13%nat
  | GenericBeam _ _ _ _ _ => True
  end.
Proof.
  intros Hs Hd He.
  destruct (sufficient_numbers _ _ Hs)
    as (a & ix & iy & bk & sq & strain & l & Ha & Hx & Hy & Hbk & Hsq & Hst & Hl).
  destruct (total_embodied_energy_number _ _ _ _ _ _ _ Ha Hl Hd He) as [tee Htee].
  destruct (cached_properties_return beam)
    as (_ & _ & Hcost & _ & Heec & Htotal & _).
  destruct beam as [m l0 a0 x0 y0 | m l0 vb vh vt | m l0 vr vt | m l0 vb vh vw vf];
    [exact I | | | ].
  - destruct vb as [|? ?], vh as [|? ?], vt as [|? ?];
      try (simpl in Ha; discriminate).
    row_returns.
  - destruct vr as [|? ?], vt as [|? ?]; try (simpl in Ha; discriminate).
    row_returns.
  - destruct vb as [|? ?], vh as [|? ?], vw as [|? ?], vf as [|? ?];
      try (simpl in Ha; discriminate).
    row_returns.
Qed.



(** The beams of a grid are of the family and of the material of the
    grid. *)
Lemma grid_beam_shapes (material : Material) (beam : Beam) :
  (In beam (I_grid material) ->
   exists b h tw tf, beam = IBeam material Part2.length b h tw tf) /\
  (In beam (RHS_grid material) ->
   exists b h t, beam = RHSBeam material Part2.length b h t) /\
  (In beam (CHS_grid material) ->
   exists r t, beam = CHSBeam material Part2.length r t).
Proof.
  unfold I_grid, RHS_grid, CHS_grid.
  repeat split; intros H;
    repeat (apply in_flat_map in H as (? & _ & H));
    apply in_map_iff in H as (? & <- & _); eauto.
Qed.

Lemma write_rows_return (row_of : Beam -> result (list Driver.cell)) (n : nat)
    (beams : list Beam) :
  Forall (fun beam => exists row, row_of beam = Ok row /\ List.length row = n) beams ->
  exists written,
    Driver.write_rows row_of beams = Ok written /\
    List.length written = List.length beams /\
    Forall (fun row => List.length row = n) written.
Proof.
  unfold Driver.write_rows. intros H.
  assert (G : forall acc, Forall (fun row => List.length row = n) acc ->
            exists written,
              Part2.for_each beams
                (fun beam written => row <- row_of beam ;; Ok (written ++ [row]))
                acc = Ok written /\
              List.length written = (List.length acc + List.length beams)%nat /\
              Forall (fun row => List.length row = n) written).
  { induction H as [|beam beams (row & E & L) _ IH]; intros acc Hacc; simpl.
    - exists acc. repeat split; trivial; lia.
    - rewrite E. simpl.
      destruct (IH (acc ++ [row])) as (written & -> & Lw & Fw).
      { apply Forall_app. split; [assumption|]. now repeat constructor. }
      exists written. repeat split; trivial.
      rewrite Lw, length_app. simpl. lia. }
  destruct (G [] (Forall_nil _)) as (written & E & L & F).
  exists written. repeat split; trivial.
Qed.


(** * The code over Python objects *)

Section ObjectProperties.

Import Objects.
Local Open Scope obj_scope.

Context {obj : Type} {O : PyObject obj}.

(** ** The handlers *)

Lemma or_none_uncaught (r : result (value obj)) (e : exn) :
  or_none r = Raise e -> uncaught e.
Proof.
  destruct r as [v|[]]; simpl; intros H; inversion H; subst;
    split; discriminate.
Qed.

Lemma or_none_cases (r : result (value obj)) :
  (exists v, r = Ok v /\ or_none r = Ok v) \/
  ((r = Raise AttributeError \/ r = Raise TypeError) /\ or_none r = Ok VNone) \/
  (exists e, r = Raise e /\ uncaught e /\ or_none r = Raise e).
Proof.
  destruct r as [v|e].
  - left. now exists v.
  - right. destruct e; simpl;
      try (left; split; [auto|reflexivity]);
      right; eexists; (split; [reflexivity|]); (split; [split; discriminate|reflexivity]).
Qed.

Lemma undefined_not_escapes (r : result (value obj)) : undefined r -> ~ escapes r.
Proof.
  intros [-> | [-> | ->]] (e & H & H1 & H2); inversion H; subst; congruence.
Qed.

Lemma escapes_or_none (r : result (value obj)) : escapes r -> escapes (or_none r).
Proof.
  intros (e & -> & H1 & H2). exists e. split; [|split; assumption].
  destruct e; simpl; congruence.
Qed.

(** An operator with an undefined operand: the handler returns [None],
    unless the other operand raised something else first. *)
Lemma or_none_binary_undefined (op : obj -> obj -> result obj)
    (ra rb : result (value obj)) :
  undefined ra \/ undefined rb ->
  or_none (bin (binary op) ra rb) = Ok VNone \/
  (escapes ra \/ escapes rb) /\ escapes (or_none (bin (binary op) ra rb)).
Proof.
  intros H.
  assert (Hu : forall v : value obj, undefined (Ok v) -> v = VNone).
  { intros v [E|[E|E]]; inversion E; reflexivity. }
  destruct ra as [a|ea].
  - destruct rb as [b|eb].
    + left. destruct H as [H|H]; apply Hu in H; subst; [|destruct a]; reflexivity.
    + destruct eb; simpl; auto; right;
        (split; [right|]); eexists; (split; [reflexivity|split; discriminate]).
  - destruct ea; simpl; auto; right;
      (split; [left|]); eexists; (split; [reflexivity|split; discriminate]).
Qed.

(** When no operand can raise anything else, [None] it is. *)
Lemma or_none_binary_None (op : obj -> obj -> result obj)
    (ra rb : result (value obj)) :
  undefined ra \/ undefined rb -> ~ escapes ra -> ~ escapes rb ->
  or_none (bin (binary op) ra rb) = Ok VNone.
Proof.
  intros H Ha Hb.
  destruct (or_none_binary_undefined op ra rb H) as [E|[[E|E] _]];
    [assumption|contradiction|contradiction].
Qed.

Lemma Ok_not_escapes {A : Type} (a : A) : ~ escapes (Ok a).
Proof. intros (e & H & _). discriminate. Qed.

Lemma getattr_not_escapes (a : option (value obj)) : ~ escapes (getattr a).
Proof.
  destruct a; simpl; [apply Ok_not_escapes|].
  intros (e & H & H1 & _). inversion H. congruence.
Qed.

Lemma length_not_escapes (self : Beam obj) : ~ escapes (length self).
Proof.
  destruct self; simpl; first [apply getattr_not_escapes|apply Ok_not_escapes].
Qed.

Lemma Ok_VNone_undefined : undefined (Ok (@VNone obj)).
Proof. now left. Qed.

Lemma Ok_VNone_not_escapes (r : result (value obj)) : r = Ok VNone -> ~ escapes r.
Proof. intros ->. apply Ok_not_escapes. Qed.

(** ** The derived properties *)

(** No derived property lets an [AttributeError] or a [TypeError]
    out. *)
Lemma derived_properties_catch (self : Beam obj) (loading : value obj) (e : exn) :
  volume self = Raise e \/ mass self = Raise e \/ cost self = Raise e \/
  total_embodied_energy self = Raise e \/ embodied_energy_cost self = Raise e \/
  total_cost self = Raise e \/ buckling_load self = Raise e \/
  squash_load self = Raise e \/ get_strain self loading = Raise e \/
  is_sufficient self loading = Raise e ->
  uncaught e.
Proof.
  intros [H|[H|[H|[H|[H|[H|[H|[H|[H|H]]]]]]]]];
    try (apply or_none_uncaught in H; exact H).
  unfold is_sufficient in H.
  match type of H with match ?r with _ => _ end = _ => destruct r as [s|[]] end;
    inversion H; subst; split; discriminate.
Qed.

(** An undefined volume goes through every property that depends on
    it. *)
Lemma undefined_volume_propagates (self : Beam obj) :
  volume self = Ok VNone ->
  mass self = Ok VNone /\ cost self = Ok VNone /\
  total_embodied_energy self = Ok VNone /\
  embodied_energy_cost self = Ok VNone /\ total_cost self = Ok VNone.
Proof.
  intros Hv.
  assert (Hm : mass self = Ok VNone) by (unfold mass; rewrite Hv; reflexivity).
  assert (Hc : cost self = Ok VNone) by (unfold cost; rewrite Hm; reflexivity).
  assert (Ht : total_embodied_energy self = Ok VNone)
    by (unfold total_embodied_energy; rewrite Hm; reflexivity).
  assert (He : embodied_energy_cost self = Ok VNone)
    by (unfold embodied_energy_cost; rewrite Ht; reflexivity).
  repeat split; trivial.
  unfold total_cost. rewrite Hc, He. reflexivity.
Qed.

(** An undefined area leaves the volume, the squash load and the strain
    undefined. *)
Lemma undefined_area_propagates (self : Beam obj) (loading : value obj) :
  undefined (area self) ->
  volume self = Ok VNone /\ squash_load self = Ok VNone /\
  get_strain self loading = Ok VNone.
Proof.
  intros H. split; [|split].
  - apply or_none_binary_None; auto using undefined_not_escapes, length_not_escapes.
  - apply or_none_binary_None; auto using undefined_not_escapes, Ok_not_escapes.
  - unfold get_strain.
    destruct H as [H|[H|H]]; rewrite H; destruct loading; reflexivity.
Qed.

Lemma binary_None_or_escapes (op : obj -> obj -> result obj)
    (ra rb : result (value obj)) :
  undefined ra \/ undefined rb ->
  None_or_escapes (or_none (bin (binary op) ra rb)).
Proof.
  intros H. destruct (or_none_binary_undefined op ra rb H) as [E|[_ E]];
    [now left|now right].
Qed.

Lemma value_undefined (v : value obj) : v = VNone -> undefined (Ok v).
Proof. intros ->. now left. Qed.

Lemma buckling_load_None_or_escapes (self : Beam obj) :
  undefined (second_moment_of_area_xx self) \/
  undefined (second_moment_of_area_yy self) \/
  modulus (material self) = VNone \/ undefined (length self) ->
  None_or_escapes (buckling_load self).
Proof.
  intros H. unfold None_or_escapes, buckling_load.
  match goal with |- or_none ?r = _ \/ _ =>
    destruct (or_none_cases r) as [(v & E & E')|[(_ & E')|(e & E & U & E')]]
  end.
  - exfalso. revert E.
    destruct (second_moment_of_area_xx self) as [ixx|ex]; simpl; [|discriminate].
    destruct (second_moment_of_area_yy self) as [iyy|ey]; simpl; [|discriminate].
    unfold py_min.
    destruct (v_lt iyy ixx) as [c|ec] eqn:Elt; simpl; [|discriminate].
    assert (exists x y, ixx = VObj x /\ iyy = VObj y) as (x & y & -> & ->).
    { destruct ixx, iyy; try discriminate. eauto. }
    destruct (op_pow math_pi 2) as [p|ep]; simpl; [|discriminate].
    destruct (modulus (material self)) as [|m]; simpl; [discriminate|].
    destruct (op_mul p m) as [pm|]; simpl; [|discriminate].
    assert (Hmin : exists z, (if c then VObj y else VObj x) = VObj z)
      by (destruct c; eauto).
    destruct Hmin as (z & ->). simpl.
    destruct (op_mul pm z) as [pmz|]; simpl; [|discriminate].
    destruct (length self) as [[|l]|el]; simpl; try discriminate.
    intros _.
    destruct H as [H|[H|[H|H]]]; try discriminate;
      destruct H as [H|[H|H]]; discriminate.
  - now left.
  - right. exists e. rewrite E'. now split.
Qed.

Lemma get_strain_None_or_escapes (self : Beam obj) (loading : value obj) :
  loading = VNone \/ undefined (area self) \/ modulus (material self) = VNone ->
  None_or_escapes (get_strain self loading).
Proof.
  intros H. unfold None_or_escapes, get_strain.
  match goal with |- or_none ?r = _ \/ _ =>
    destruct (or_none_cases r) as [(v & E & E')|[(_ & E')|(e & E & U & E')]]
  end.
  - exfalso. revert E.
    destruct loading as [|l]; simpl.
    { destruct (area self) as [[|a]|]; simpl; discriminate. }
    destruct (area self) as [[|a]|ea]; simpl; try discriminate.
    destruct (op_truediv l a) as [s|]; simpl; [|discriminate].
    destruct (modulus (material self)) as [|m]; simpl; [discriminate|].
    intros _.
    destruct H as [H|[H|H]]; try discriminate.
    destruct H as [H|[H|H]]; discriminate.
  - now left.
  - right. exists e. rewrite E'. now split.
Qed.

(** What [is_sufficient] returns is treated as false as soon as one of
    the quantities it compares is undefined. *)
Lemma is_sufficient_undefined_is_falsy (self : Beam obj) (loading : value obj)
    (s : option bool) :
  is_sufficient self loading = Ok s ->
  get_strain self loading = Ok VNone \/ squash_load self = Ok VNone \/
  buckling_load self = Ok VNone \/ elongation (material self) = VNone \/
  loading = VNone ->
  truthy s = false.
Proof.
  unfold is_sufficient. intros E H.
  destruct (get_strain self loading) as [strain|e1]; simpl in E;
    [|destruct e1; inversion E; reflexivity].
  destruct (squash_load self) as [sq|e2]; simpl in E;
    [|destruct e2; inversion E; reflexivity].
  destruct (v_ge sq loading) as [[|]|e3] eqn:E3; simpl in E;
    [| inversion E; reflexivity | destruct e3; inversion E; reflexivity].
  destruct (buckling_load self) as [bk|e4]; simpl in E;
    [|destruct e4; inversion E; reflexivity].
  destruct (v_ge bk loading) as [[|]|e5] eqn:E5; simpl in E;
    [| inversion E; reflexivity | destruct e5; inversion E; reflexivity].
  destruct (v_le strain (elongation (material self))) as [c|e6] eqn:E6; simpl in E;
    [|destruct e6; inversion E; reflexivity].
  exfalso.
  destruct H as [H|[H|[H|[H|H]]]].
  - inversion H. subst. discriminate.
  - inversion H. subst. discriminate.
  - inversion H. subst. discriminate.
  - rewrite H in E6. destruct strain; discriminate.
  - subst. destruct sq; discriminate.
Qed.

(** An operation that accepts its operands gives the property its
    value, whatever the types of the operands. *)
Lemma volume_of_accepted_operands (self : Beam obj) (a l v : obj) :
  area self = Ok (VObj a) -> length self = Ok (VObj l) -> op_mul a l = Ok v ->
  volume self = Ok (VObj v).
Proof.
  intros Ha Hl Hv. unfold volume. rewrite Ha, Hl. simpl. rewrite Hv. reflexivity.
Qed.


End ObjectProperties.

(** * The code in binary64 *)

(** ** The order of the doubles *)

Section FloatOrder.

Import PrimFloat SpecFloat FloatOps FloatAxioms.

Lemma SFltb_irrefl (x : spec_float) : SFltb x x = false.
Proof.
  unfold SFltb, SFcompare. destruct x as [s|s| |s m e]; try destruct s; trivial;
    rewrite Z.compare_refl, Pos.compare_cont_refl; reflexivity.
Qed.

Lemma SFltb_trans (x y z : spec_float) :
  SFltb x y = true -> SFltb y z = true -> SFltb x z = true.
Proof.
  unfold SFltb, SFcompare.
  destruct x as [sx|sx| |sx mx ex], y as [sy|sy| |sy my ey], z as [sz|sz| |sz mz ez];
    try destruct sx; try destruct sy; try destruct sz;
    try discriminate; trivial;
    repeat match goal with
    | |- context [Pos.compare_cont Eq ?a ?b] =>
        change (Pos.compare_cont Eq a b) with (Pos.compare a b)
    end;
    destruct (Z.compare_spec ex ey), (Z.compare_spec ey ez), (Z.compare_spec ex ez);
    try lia; try discriminate; trivial;
    destruct (Pos.compare_spec mx my), (Pos.compare_spec my mz), (Pos.compare_spec mx mz);
    try lia; try discriminate; trivial.
Qed.

Lemma ltb_irrefl (x : float) : ltb x x = false.
Proof. rewrite ltb_spec. apply SFltb_irrefl. Qed.

Lemma ltb_trans (x y z : float) :
  ltb x y = true -> ltb y z = true -> ltb x z = true.
Proof. rewrite !ltb_spec. apply SFltb_trans. Qed.

Lemma ltb_asym (x y : float) : ltb x y = true -> ltb y x = false.
Proof.
  intros H. destruct (ltb y x) eqn:E; trivial.
  rewrite <- (ltb_irrefl x). symmetry. exact (ltb_trans _ _ _ H E).
Qed.

End FloatOrder.

Section Increasing.

Import Binary64.

(** In an increasing list every value is below those after it. *)
Lemma increasing_cons (x : PrimFloat.float) (l : list PrimFloat.float) :
  increasing (x :: l) = true ->
  increasing l = true /\ forall y, In y l -> PrimFloat.ltb x y = true.
Proof.
  revert x. induction l as [|a l IH]; intros x H.
  - split; [reflexivity|intros y []].
  - simpl in H. apply andb_prop in H as [Hxa Hl].
    destruct (IH a Hl) as [_ Ha]. split; [exact Hl|].
    intros y [<-|Hy]; [exact Hxa|].
    exact (ltb_trans _ _ _ Hxa (Ha y Hy)).
Qed.

(** If a list and its image are both increasing, the function is
    strictly increasing on the values of the list. *)
Lemma increasing_map (f : PrimFloat.float -> PrimFloat.float)
    (l : list PrimFloat.float) :
  increasing l = true -> increasing (map f l) = true ->
  forall x y, In x l -> In y l ->
    PrimFloat.ltb x y = true -> PrimFloat.ltb (f x) (f y) = true.
Proof.
  induction l as [|a l IH]; intros Hl Hf x y Hx Hy Hxy; [destruct Hx|].
  apply increasing_cons in Hl as [Hl Ha].
  change (map f (a :: l)) with (f a :: map f l) in Hf.
  apply increasing_cons in Hf as [Hf Hfa].
  destruct Hx as [<-|Hx], Hy as [<-|Hy].
  - rewrite ltb_irrefl in Hxy. discriminate.
  - apply Hfa, in_map, Hy.
  - rewrite (ltb_asym _ _ (Ha x Hx)) in Hxy. discriminate.
  - now apply IH.
Qed.

Lemma all_of_enumerates {A : Type} (range : Objects.result (list A))
    (p : A -> bool) :
  all_of range p = true -> forall x, enumerates range x -> p x = true.
Proof.
  intros H x (l & -> & Hx). simpl in H.
  rewrite forallb_forall in H. exact (H x Hx).
Qed.

End Increasing.

Section Binary64Properties.

Import Objects Binary64.
Import PrimFloat.
Local Open Scope float_scope.

(** ** What the properties compute on numpy scalars *)

Lemma IBeam_area_double (material : Material number) (length : value number)
    (b h tw tf : float) :
  area (IBeam material length (np b) (np h) (np tw) (np tf))
  = Ok (np (I_area b h tw tf)).
Proof. reflexivity. Qed.

Lemma RHSBeam_area_double (material : Material number) (length : value number)
    (b h t : float) :
  area (RHSBeam material length (np b) (np h) (np t)) = Ok (np (RHS_area b h t)).
Proof. reflexivity. Qed.

Lemma CHSBeam_area_double (material : Material number) (length : value number)
    (r t : float) :
  area (CHSBeam material length (np r) (np t)) = Ok (np (CHS_area r t)).
Proof. reflexivity. Qed.

Lemma CHSBeam_second_moment_double (material : Material number)
    (length : value number) (r t : float) :
  second_moment_of_area_xx (CHSBeam material length (np r) (np t))
  = Ok (np (CHS_second_moment r t)).
Proof. reflexivity. Qed.

Lemma area_lt_IBeam (material : Material number) (length : value number)
    (b h tw tf b' h' tw' tf' : float) :
  area_lt (IBeam material length (np b) (np h) (np tw) (np tf))
          (IBeam material length (np b') (np h') (np tw') (np tf'))
  = Ok (I_area b h tw tf <? I_area b' h' tw' tf').
Proof. reflexivity. Qed.

Lemma enumerates_inj {A : Type} (range : result (list A)) (l : list A) (x : A) :
  range = Ok l -> enumerates range x -> In x l.
Proof. intros E (l' & E' & H). rewrite E in E'. inversion E'. now subst. Qed.

(** ** The tests, run *)

Lemma RHS_walls_in_bounds : over_RHS_ranges RHS_wall_in_bounds = true.
Proof. vm_compute. reflexivity. Qed.

Lemma RHS_areas_in_bounds : over_RHS_ranges RHS_area_in_bounds = true.
Proof. vm_compute. reflexivity. Qed.

Lemma webs_checked : all_of Part2.breadths webs_pass = true.
Proof. vm_compute. reflexivity. Qed.

Lemma flanges_checked : all_of Part2.heights flanges_pass = true.
Proof. vm_compute. reflexivity. Qed.

Lemma CHS_all_in_bounds : over_CHS_ranges CHS_in_bounds = true.
Proof. vm_compute. reflexivity. Qed.

Lemma over_RHS_ranges_spec (p : float -> float -> float -> bool) (b h t : float) :
  over_RHS_ranges p = true ->
  enumerates Part2.breadths b -> enumerates Part2.heights h ->
  enumerates (Part2.RHS_thicknesses b h) t ->
  p b h t = true.
Proof.
  intros H Hb Hh Ht.
  exact (all_of_enumerates _ _
           (all_of_enumerates _ _ (all_of_enumerates _ _ H b Hb) h Hh) t Ht).
Qed.

Lemma over_CHS_ranges_spec (p : float -> float -> bool) (r t : float) :
  over_CHS_ranges p = true ->
  enumerates Part2.radii r -> enumerates (Part2.walls r) t ->
  p r t = true.
Proof.
  intros H Hr Ht.
  exact (all_of_enumerates _ _ (all_of_enumerates _ _ H r Hr) t Ht).
Qed.

(** What the test of the web thicknesses gives for one breadth, one
    height and one flange thickness. *)
Lemma web_growth (b h tf tw tw' : float) :
  enumerates Part2.breadths b -> enumerates Part2.heights h ->
  enumerates (Part2.flanges h) tf ->
  enumerates (Part2.webs b) tw -> enumerates (Part2.webs b) tw' ->
  (half_step <? h - 2 * tf) = true -> (tw <? tw') = true ->
  (I_area b h tw tf <? I_area b h tw' tf) = true.
Proof.
  intros Hb Hh Htf Htw Htw' Hweb Hlt.
  pose proof (all_of_enumerates _ _ webs_checked b Hb) as H. unfold webs_pass in H.
  destruct Htw as (ws & Ews & Htw). apply (enumerates_inj _ _ _ Ews) in Htw'.
  rewrite Ews in H. apply andb_prop in H as [Hinc H].
  pose proof (all_of_enumerates _ _ (all_of_enumerates _ _ H h Hh) tf Htf) as Hp.
  unfold web_pass in Hp. rewrite Hweb in Hp.
  exact (increasing_map (fun tw => I_area b h tw tf) ws Hinc Hp tw tw' Htw Htw' Hlt).
Qed.

Lemma flange_test (b h tw : float) (fs : list float) :
  enumerates Part2.breadths b -> enumerates Part2.heights h ->
  enumerates (Part2.webs b) tw -> Part2.flanges h = Ok fs ->
  increasing fs = true /\ flange_pass b h tw fs = true.
Proof.
  intros Hb Hh Htw Efs.
  pose proof (all_of_enumerates _ _ flanges_checked h Hh) as H. unfold flanges_pass in H.
  rewrite Efs in H. apply andb_prop in H as [Hinc H]. split; [exact Hinc|].
  exact (all_of_enumerates _ _ (all_of_enumerates _ _ H b Hb) tw Htw).
Qed.

Lemma flange_growth (b h tw tf tf' : float) :
  enumerates Part2.breadths b -> enumerates Part2.heights h ->
  enumerates (Part2.webs b) tw ->
  enumerates (Part2.flanges h) tf -> enumerates (Part2.flanges h) tf' ->
  (half_step <? b - tw) = true -> (tf <? tf') = true ->
  (I_area b h tw tf <? I_area b h tw tf') = true.
Proof.
  intros Hb Hh Htw Htf Htf' Hflange Hlt.
  destruct Htf as (fs & Efs & Htf). apply (enumerates_inj _ _ _ Efs) in Htf'.
  destruct (flange_test b h tw fs Hb Hh Htw Efs) as [Hinc Hp].
  unfold flange_pass in Hp. apply andb_prop in Hp as [_ Hp]. rewrite Hflange in Hp.
  exact (increasing_map (fun tf => I_area b h tw tf) fs Hinc Hp tf tf' Htf Htf' Hlt).
Qed.

Lemma I_area_positive (b h tw tf : float) :
  enumerates Part2.breadths b -> enumerates Part2.heights h ->
  enumerates (Part2.webs b) tw -> enumerates (Part2.flanges h) tf ->
  (0 <? I_area b h tw tf) = true /\ (I_area b h tw tf <? infinity) = true.
Proof.
  intros Hb Hh Htw (fs & Efs & Htf).
  destruct (flange_test b h tw fs Hb Hh Htw Efs) as [_ Hp].
  unfold flange_pass in Hp. apply andb_prop in Hp as [Hp _].
  rewrite forallb_forall in Hp.
  apply andb_prop. exact (Hp _ (in_map (fun tf => I_area b h tw tf) fs tf Htf)).
Qed.

(** ** Some values of the ranges *)

Lemma first_step_enumerated :
  enumerates Part2.breadths Part2.step_size /\
  enumerates Part2.heights Part2.step_size /\
  enumerates (Part2.RHS_thicknesses Part2.step_size Part2.step_size) Part2.step_size.
Proof.
  repeat split; (eexists; split; [vm_compute; reflexivity|]); simpl; auto.
Qed.

Lemma two_steps_enumerated :
  enumerates Part2.breadths Examples64.two_steps /\
  enumerates Part2.heights Examples64.two_steps /\
  enumerates (Part2.webs Examples64.two_steps) Part2.step_size /\
  enumerates (Part2.webs Examples64.two_steps) Examples64.two_steps /\
  enumerates (Part2.flanges Examples64.two_steps) Part2.step_size /\
  enumerates (Part2.RHS_thicknesses Examples64.two_steps Examples64.two_steps)
    Part2.step_size.
Proof.
  repeat split; (eexists; split; [vm_compute; reflexivity|]); simpl; auto.
Qed.

Lemma three_steps_enumerated :
  enumerates Part2.breadths Examples64.three_steps /\
  enumerates Part2.heights Examples64.three_steps /\
  enumerates Part2.radii Examples64.three_steps /\
  enumerates (Part2.webs Examples64.three_steps) Part2.step_size /\
  enumerates (Part2.webs Examples64.three_steps) Examples64.two_steps /\
  enumerates (Part2.flanges Examples64.three_steps) Part2.step_size /\
  enumerates (Part2.flanges Examples64.three_steps) Examples64.two_steps /\
  enumerates (Part2.walls Examples64.three_steps) Examples64.two_steps.
Proof.
  repeat split; (eexists; split; [vm_compute; reflexivity|]); simpl; auto.
Qed.

(** ** The claims *)





(** C8, the claim as stated fails: on the search grid itself, with
    breadth and height 2 mm and flanges of 1 mm, the web has no height,
    and the area is the same for a web of 1 mm and of 2 mm. *)
Lemma IBeam_area_not_increasing_in_web :
  let b := Examples64.two_steps in
  let h := Examples64.two_steps in
  let tf := Part2.step_size in
  let tw := Part2.step_size in
  let tw' := Examples64.two_steps in
  enumerates Part2.breadths b /\ enumerates Part2.heights h /\
  enumerates (Part2.flanges h) tf /\
  enumerates (Part2.webs b) tw /\ enumerates (Part2.webs b) tw' /\
  (0 <? tw) = true /\ (tw <? tw') = true /\
  area_lt (IBeam Examples64.steel Part2.length (np b) (np h) (np tw) (np tf))
          (IBeam Examples64.steel Part2.length (np b) (np h) (np tw') (np tf))
  = Ok false.
Proof.
  destruct two_steps_enumerated as (Hb & Hh & Hw & Hw' & Hf & _).
  repeat split; trivial.
Qed.

(** C8, amended.  For the I-beams that the search builds, a breadth [b]
    and a height [h] of its ranges being fixed: the area is strictly
    increasing in the web thickness over the web thicknesses tried, for
    every flange thickness tried that leaves the web a step high or
    more ([h - 2*tf] above half a step); and strictly increasing in the
    flange thickness over the flange thicknesses tried, for every web
    thickness tried that is a step or more below the breadth. *)
Theorem IBeam_area_monotonicity (material : Material number) (b h : float) :
  enumerates Part2.breadths b -> enumerates Part2.heights h ->
  (forall tf tw tw',
     enumerates (Part2.flanges h) tf ->
     enumerates (Part2.webs b) tw -> enumerates (Part2.webs b) tw' ->
     (half_step <? h - 2 * tf) = true -> (tw <? tw') = true ->
     area_lt (IBeam material Part2.length (np b) (np h) (np tw) (np tf))
             (IBeam material Part2.length (np b) (np h) (np tw') (np tf))
     = Ok true) /\
  (forall tw tf tf',
     enumerates (Part2.webs b) tw ->
     enumerates (Part2.flanges h) tf -> enumerates (Part2.flanges h) tf' ->
     (half_step <? b - tw) = true -> (tf <? tf') = true ->
     area_lt (IBeam material Part2.length (np b) (np h) (np tw) (np tf))
             (IBeam material Part2.length (np b) (np h) (np tw) (np tf'))
     = Ok true).
Proof.
  intros Hb Hh. split.
  - intros tf tw tw' Htf Htw Htw' Hweb Hlt. rewrite area_lt_IBeam. f_equal.
    now apply web_growth.
  - intros tw tf tf' Htw Htf Htf' Hflange Hlt. rewrite area_lt_IBeam. f_equal.
    now apply flange_growth.
Qed.

Lemma IBeam_area_monotonicity_witness :
  let b := Examples64.three_steps in
  let h := Examples64.three_steps in
  area_lt
    (IBeam Examples64.steel Part2.length (np b) (np h) (np Part2.step_size)
       (np Part2.step_size))
    (IBeam Examples64.steel Part2.length (np b) (np h) (np Examples64.two_steps)
       (np Part2.step_size))
  = Ok true /\
  area_lt
    (IBeam Examples64.steel Part2.length (np b) (np h) (np Part2.step_size)
       (np Part2.step_size))
    (IBeam Examples64.steel Part2.length (np b) (np h) (np Part2.step_size)
       (np Examples64.two_steps))
  = Ok true.
Proof.
  destruct three_steps_enumerated as (Hb & Hh & _ & Hw & Hw' & Hf & Hf' & _).
  destruct (IBeam_area_monotonicity Examples64.steel Examples64.three_steps
              Examples64.three_steps Hb Hh) as [Hweb Hflange].
  split.
  - apply Hweb; trivial.
  - apply Hflange; trivial.
Defined.


(** A power out of the range of a double raises [OverflowError], which
    no handler catches either: in the area of a round bar of radius
    and wall [1e155], hence in its volume and its squash load, and in
    the buckling load of a beam [1e155] long. *)
Lemma overflow_escapes_the_handlers :
  area Examples64.chs_huge = Raise OverflowError /\
  volume Examples64.chs_huge = Raise OverflowError /\
  squash_load Examples64.chs_huge = Raise OverflowError /\
  buckling_load Examples64.long_section = Raise OverflowError.
Proof. repeat split; vm_compute; reflexivity. Qed.

(** ** Further properties of the searches in binary64 *)

Lemma ten_steps_enumerated :
  enumerates Part2.breadths Examples64.ten_steps /\
  enumerates Part2.heights Examples64.ten_steps /\
  enumerates Part2.radii Examples64.ten_steps /\
  enumerates (Part2.webs Examples64.ten_steps) Examples64.eleven_steps /\
  enumerates (Part2.walls Examples64.ten_steps) Examples64.eleven_steps.
Proof.
  repeat split; (eexists; split; [vm_compute; reflexivity|]); simpl; auto 20.
Qed.

(** X1.  The ranges of the searches pass their maximum where rounding
    adds a value to [np.arange]: for the breadth 10 mm a web of 11 mm is
    tried, broader than the flanges, and for the radius 10 mm a wall of
    11 mm, thicker than the radius. *)
Theorem ranges_pass_their_maximum :
  (exists b tw, enumerates Part2.breadths b /\ enumerates (Part2.webs b) tw /\
                (b <? tw) = true) /\
  (exists r t, enumerates Part2.radii r /\ enumerates (Part2.walls r) t /\
               (r <? t) = true).
Proof.
  destruct ten_steps_enumerated as (Hb & _ & Hr & Hw & Ht).
  split; exists Examples64.ten_steps, Examples64.eleven_steps; repeat split; trivial.
Qed.

(** X10.  Every I-beam that the search builds has a positive finite
    area, also where the web is broader than the flanges or the flanges
    meet: the division of the load by the area is an ordinary one. *)
Theorem I_beams_tried_have_positive_area (material : Material number)
    (b h tw tf : float) :
  enumerates Part2.breadths b -> enumerates Part2.heights h ->
  enumerates (Part2.webs b) tw -> enumerates (Part2.flanges h) tf ->
  exists a,
    area (IBeam material Part2.length (np b) (np h) (np tw) (np tf)) = Ok (np a) /\
    (0 <? a) = true /\ (a <? infinity) = true.
Proof.
  intros Hb Hh Htw Htf. exists (I_area b h tw tf).
  split; [apply IBeam_area_double|]. now apply I_area_positive.
Qed.

Lemma I_beams_tried_have_positive_area_witness :
  exists a,
    area (IBeam Examples64.steel Part2.length (np Examples64.three_steps)
            (np Examples64.three_steps) (np Part2.step_size) (np Part2.step_size))
    = Ok (np a) /\
    (0 <? a) = true /\ (a <? infinity) = true.
Proof.
  destruct three_steps_enumerated as (Hb & Hh & _ & Hw & _ & Hf & _).
  exact (I_beams_tried_have_positive_area Examples64.steel _ _ _ _ Hb Hh Hw Hf).
Defined.

(** X11.  Every hollow rectangle that the search builds has a positive
    area, but the first one, whose breadth, height and wall are all one
    step and whose area is zero. *)
Theorem RHS_beams_tried_have_nonnegative_area (material : Material number)
    (b h t : float) :
  enumerates Part2.breadths b -> enumerates Part2.heights h ->
  enumerates (Part2.RHS_thicknesses b h) t ->
  exists a,
    area (RHSBeam material Part2.length (np b) (np h) (np t)) = Ok (np a) /\
    ((0 <? a) = true \/
     (a =? 0) = true /\ (b =? Part2.step_size) = true /\
     (h =? Part2.step_size) = true /\ (t =? Part2.step_size) = true).
Proof.
  intros Hb Hh Ht. exists (RHS_area b h t).
  split; [apply RHSBeam_area_double|].
  pose proof (over_RHS_ranges_spec _ b h t RHS_areas_in_bounds Hb Hh Ht) as H.
  unfold RHS_area_in_bounds in H.
  apply orb_prop in H as [H|H]; [now left|right].
  apply andb_prop in H as [H H4]. apply andb_prop in H as [H H3].
  apply andb_prop in H as [H1 H2]. auto.
Qed.

Lemma RHS_beams_tried_have_nonnegative_area_witness :
  exists a,
    area (RHSBeam Examples64.steel Part2.length (np Part2.step_size)
            (np Part2.step_size) (np Part2.step_size)) = Ok (np a) /\
    ((0 <? a) = true \/
     (a =? 0) = true /\ (Part2.step_size =? Part2.step_size) = true /\
     (Part2.step_size =? Part2.step_size) = true /\
     (Part2.step_size =? Part2.step_size) = true).
Proof.
  destruct first_step_enumerated as (Hb & Hh & Ht).
  exact (RHS_beams_tried_have_nonnegative_area Examples64.steel _ _ _ Hb Hh Ht).
Defined.

(** X12.  Every circular section that the search builds has a wall of
    at least one step and at most the radius plus one step, a positive
    area and a positive second moment of area. *)
Theorem CHS_beams_tried_are_positive (material : Material number) (r t : float) :
  enumerates Part2.radii r -> enumerates (Part2.walls r) t ->
  (Part2.step_size <=? t) = true /\ (t <=? r + Part2.step_size) = true /\
  exists a i,
    area (CHSBeam material Part2.length (np r) (np t)) = Ok (np a) /\
    second_moment_of_area_xx (CHSBeam material Part2.length (np r) (np t))
    = Ok (np i) /\
    (0 <? a) = true /\ (0 <? i) = true.
Proof.
  intros Hr Ht.
  pose proof (over_CHS_ranges_spec _ r t CHS_all_in_bounds Hr Ht) as H.
  unfold CHS_in_bounds in H.
  apply andb_prop in H as [H H4]. apply andb_prop in H as [H H3].
  apply andb_prop in H as [H1 H2].
  split; [exact H1|]. split; [exact H2|].
  exists (CHS_area r t), (CHS_second_moment r t).
  split; [apply CHSBeam_area_double|].
  split; [apply CHSBeam_second_moment_double|]. auto.
Qed.

Lemma CHS_beams_tried_are_positive_witness :
  (Part2.step_size <=? Examples64.two_steps) = true /\
  (Examples64.two_steps <=? Examples64.three_steps + Part2.step_size) = true /\
  exists a i,
    area (CHSBeam Examples64.steel Part2.length (np Examples64.three_steps)
            (np Examples64.two_steps)) = Ok (np a) /\
    second_moment_of_area_xx
      (CHSBeam Examples64.steel Part2.length (np Examples64.three_steps)
         (np Examples64.two_steps)) = Ok (np i) /\
    (0 <? a) = true /\ (0 <? i) = true.
Proof.
  destruct three_steps_enumerated as (_ & _ & Hr & _ & _ & _ & _ & Ht).
  exact (CHS_beams_tried_are_positive Examples64.steel _ _ Hr Ht).
Defined.

(** No circular hollow section of the search carries 24 kN over 2 m in
    steel. *)
Example no_CHS_beam_for_steel :
  Part2.get_best_CHS_beam Examples64.steel_table = Ok None.
Proof. vm_compute. reflexivity. Qed.

End Binary64Properties.

(** ** What the searches keep, in binary64 *)

Section FloatEquality.

Import PrimFloat SpecFloat FloatOps FloatAxioms.

Lemma SFeqb_trans (x y z : spec_float) :
  SFeqb x y = true -> SFeqb y z = true -> SFeqb x z = true.
Proof.
  unfold SFeqb, SFcompare.
  destruct x as [sx|sx| |sx mx ex], y as [sy|sy| |sy my ey], z as [sz|sz| |sz mz ez];
    try destruct sx; try destruct sy; try destruct sz;
    try discriminate; trivial;
    repeat match goal with
    | |- context [Pos.compare_cont Eq ?a ?b] =>
        change (Pos.compare_cont Eq a b) with (Pos.compare a b)
    end;
    destruct (Z.compare_spec ex ey), (Z.compare_spec ey ez), (Z.compare_spec ex ez);
    try lia; try discriminate; trivial;
    destruct (Pos.compare_spec mx my), (Pos.compare_spec my mz), (Pos.compare_spec mx mz);
    try lia; try discriminate; trivial.
Qed.

Lemma SFeqb_refl (x : spec_float) : x <> S754_nan -> SFeqb x x = true.
Proof.
  unfold SFeqb, SFcompare. destruct x as [s|s| |s m e]; try destruct s; trivial;
    try congruence; intros _;
    rewrite Z.compare_refl, Pos.compare_cont_refl; reflexivity.
Qed.

Lemma eqb_trans (x y z : float) :
  eqb x y = true -> eqb y z = true -> eqb x z = true.
Proof. rewrite !eqb_spec. apply SFeqb_trans. Qed.

(** A double that compares equal to some double, or is above one, is no
    [nan]: it equals itself. *)
Lemma eqb_refl_of_eqb (x y : float) : eqb x y = true -> eqb x x = true.
Proof.
  rewrite !eqb_spec. intros H. apply SFeqb_refl. intros E. rewrite E in H.
  discriminate.
Qed.

Lemma eqb_refl_of_ltb (x y : float) : ltb y x = true -> eqb x x = true.
Proof.
  rewrite ltb_spec, eqb_spec. intros H. apply SFeqb_refl. intros E.
  rewrite E in H. unfold SFltb, SFcompare in H.
  destruct (Prim2SF y); discriminate.
Qed.

End FloatEquality.

Section Searches64.

Import Objects Binary64.
Import PrimFloat.
Local Open Scope float_scope.
Local Open Scope obj_scope.

(** *** Loops *)

Lemma for_each64_app {B S : Type} (body : B -> S -> result S) (l1 l2 : list B) (s : S) :
  for_each (l1 ++ l2) body s = (s' <- for_each l1 body s ;; for_each l2 body s').
Proof.
  revert s. induction l1 as [|a l1 IH]; intros s; simpl; [reflexivity|].
  destruct (body a s) as [s1|e]; simpl; [apply IH|reflexivity].
Qed.

Lemma for_each64_map {A B S : Type} (body : B -> S -> result S) (g : A -> B)
    (l : list A) (s : S) :
  for_each (map g l) body s = for_each l (fun a => body (g a)) s.
Proof.
  revert s. induction l as [|a l IH]; intros s; simpl; [reflexivity|].
  destruct (body (g a) s) as [s1|e]; simpl; [apply IH|reflexivity].
Qed.

Lemma for_each64_flat_map {A B S : Type} (body : B -> S -> result S)
    (f : A -> list B) (l : list A) (s : S) :
  for_each (flat_map f l) body s = for_each l (fun a => for_each (f a) body) s.
Proof.
  revert s. induction l as [|a l IH]; intros s; simpl; [reflexivity|].
  rewrite for_each64_app.
  destruct (for_each (f a) body s) as [s1|e]; simpl; [apply IH|reflexivity].
Qed.

Lemma for_each64_ext {A S : Type} (body body' : A -> S -> result S) (l : list A) (s : S) :
  (forall a s, In a l -> body a s = body' a s) ->
  for_each l body s = for_each l body' s.
Proof.
  revert s. induction l as [|a l IH]; intros s H; simpl; [reflexivity|].
  rewrite (H a s (or_introl eq_refl)).
  destruct (body' a s) as [s1|e]; simpl; [|reflexivity].
  apply IH. intros a' s' Ha'. apply H. now right.
Qed.

(** A loop over a range that returns is a loop over its values. *)
Lemma for_in_values {A S : Type} (range : result (list A)) (body : A -> S -> result S)
    (s : S) :
  returns range = true -> for_in range body s = for_each (values range) body s.
Proof. destruct range; [reflexivity|discriminate]. Qed.

Lemma values_enumerates {A : Type} (range : result (list A)) (x : A) :
  In x (values range) -> enumerates range x.
Proof. destruct range as [l|e]; simpl; [|contradiction]. intros H. now exists l. Qed.

Lemma outer_ranges_return :
  returns Part2.breadths = true /\ returns Part2.heights = true /\
  returns Part2.radii = true.
Proof. repeat split; vm_compute; reflexivity. Qed.

Lemma ranges_of_breadths_return :
  all_of Part2.breadths ranges_of_breadth_return = true.
Proof. vm_compute. reflexivity. Qed.

Lemma ranges_of_heights_return :
  all_of Part2.heights (fun h => returns (Part2.flanges h)) = true.
Proof. vm_compute. reflexivity. Qed.

Lemma ranges_of_radii_return :
  all_of Part2.radii (fun r => returns (Part2.walls r)) = true.
Proof. vm_compute. reflexivity. Qed.

Lemma ranges_return_spec :
  returns Part2.breadths = true /\ returns Part2.heights = true /\
  returns Part2.radii = true /\
  (forall b, In b (values Part2.breadths) -> returns (Part2.webs b) = true) /\
  (forall b h, In b (values Part2.breadths) -> In h (values Part2.heights) ->
               returns (Part2.RHS_thicknesses b h) = true) /\
  (forall h, In h (values Part2.heights) -> returns (Part2.flanges h) = true) /\
  (forall r, In r (values Part2.radii) -> returns (Part2.walls r) = true).
Proof.
  destruct outer_ranges_return as (H1 & H2 & H3).
  split; [exact H1|]. split; [exact H2|]. split; [exact H3|].
  split; [|split; [|split]].
  - intros b Hb. apply values_enumerates in Hb.
    pose proof (all_of_enumerates _ _ ranges_of_breadths_return b Hb) as G.
    unfold ranges_of_breadth_return in G. now apply andb_prop in G as [G _].
  - intros b h Hb Hh. apply values_enumerates in Hb, Hh.
    pose proof (all_of_enumerates _ _ ranges_of_breadths_return b Hb) as G.
    unfold ranges_of_breadth_return in G.
    apply andb_prop in G as [_ G]. exact (all_of_enumerates _ _ G h Hh).
  - intros h Hh. apply values_enumerates in Hh.
    exact (all_of_enumerates _ _ ranges_of_heights_return h Hh).
  - intros r Hr. apply values_enumerates in Hr.
    exact (all_of_enumerates _ _ ranges_of_radii_return r Hr).
Qed.

(** Each search is the reduction of the list of the beams it builds. *)
Lemma searches_as_reductions (material : Material number) :
  Part2.get_best_I_beam material
  = reduce_best Part2.loading (I_beams_tried material) /\
  Part2.get_best_RHS_beam material
  = reduce_best Part2.loading (RHS_beams_tried material) /\
  Part2.get_best_CHS_beam material
  = reduce_best Part2.loading (CHS_beams_tried material).
Proof.
  destruct ranges_return_spec as (Hb & Hh & Hr & Hw & Ht & Hf & Hwl).
  unfold reduce_best, I_beams_tried, RHS_beams_tried, CHS_beams_tried,
    Part2.get_best_I_beam, Part2.get_best_RHS_beam, Part2.get_best_CHS_beam.
  split; [|split].
  - rewrite (for_in_values _ _ _ Hb), for_each64_flat_map.
    apply for_each64_ext. intros b s1 Inb.
    rewrite (for_in_values _ _ _ Hh), for_each64_flat_map.
    apply for_each64_ext. intros h s2 Inh.
    rewrite (for_in_values _ _ _ (Hw b Inb)), for_each64_flat_map.
    apply for_each64_ext. intros tw s3 Intw.
    rewrite (for_in_values _ _ _ (Hf h Inh)), for_each64_map. reflexivity.
  - rewrite (for_in_values _ _ _ Hb), for_each64_flat_map.
    apply for_each64_ext. intros b s1 Inb.
    rewrite (for_in_values _ _ _ Hh), for_each64_flat_map.
    apply for_each64_ext. intros h s2 Inh.
    rewrite (for_in_values _ _ _ (Ht b h Inb Inh)), for_each64_map. reflexivity.
  - rewrite (for_in_values _ _ _ Hr), for_each64_flat_map.
    apply for_each64_ext. intros r s1 Inr.
    rewrite (for_in_values _ _ _ (Hwl r Inr)), for_each64_map. reflexivity.
Qed.

(** *** One comparison *)

Lemma is_sufficient_true_spec64 (loading : value number) (self : Beam number) :
  is_sufficient_true loading self = true <-> sufficient self loading.
Proof.
  unfold is_sufficient_true, sufficient.
  destruct (is_sufficient self loading) as [[[|]|]|e]; simpl; split; congruence.
Qed.

Lemma same_area_refl (loading : value number) (self : Beam number) :
  regular loading self -> same_area self self.
Proof.
  intros (_ & a & ix & iy & Ha & Na & _). exists (VObj a), (VObj a).
  repeat split; trivial. simpl. unfold compare_with. now rewrite Na.
Qed.

(** With no incumbent the candidate is kept if and only if it is
    sufficient. *)
Lemma get_new_best_beam_first64 (loading : value number) (self : Beam number) :
  regular loading self ->
  get_new_best_beam self loading None
  = Ok (if is_sufficient_true loading self then Some self else None).
Proof.
  intros ((s & Hs) & a & ix & iy & Ha & Na & Hx & Hy).
  unfold get_new_best_beam, is_sufficient_true. rewrite Hs. cbn [bind].
  destruct s as [[|]|]; cbn [truthy]; trivial.
  rewrite Ha. cbn [bind]. simpl. unfold compare_with.
  destruct (double a <? double a); cbn [bind]; trivial.
  rewrite Na, Hx, Hy. cbn [bind]. simpl. unfold compare_with. cbn [bind].
  destruct (double ix <? double ix); cbn [bind]; trivial.
  destruct (double iy <? double iy); trivial.
Qed.

(** Against an incumbent the result is the incumbent, or the candidate
    when it is sufficient and has the area of the incumbent. *)
Lemma get_new_best_beam_step64 (loading : value number) (self c : Beam number) :
  regular loading self -> regular loading c ->
  exists b1,
    get_new_best_beam self loading (Some c) = Ok (Some b1) /\
    (b1 = c \/ b1 = self /\ sufficient self loading /\ same_area self c).
Proof.
  intros ((s & Hs) & a & ix & iy & Ha & Na & Hx & Hy)
         (_ & ca & cx & cy & Hca & Nca & Hcx & Hcy).
  unfold get_new_best_beam, sufficient. rewrite Hs. cbn [bind].
  destruct s as [[|]|]; cbn [truthy]; try (exists c; split; [reflexivity|now left]).
  rewrite Ha, Hca. cbn [bind]. simpl. unfold compare_with.
  destruct (double a <? double ca); cbn [bind];
    [exists c; split; [reflexivity|now left]|].
  destruct (double a =? double ca) eqn:E; cbn [bind];
    [|exists c; split; [reflexivity|now left]].
  rewrite Hx, Hcx, Hy, Hcy. cbn [bind]. simpl. unfold compare_with. cbn [bind].
  destruct (double cx <? double ix); cbn [bind];
    [|exists c; split; [reflexivity|now left]].
  destruct (double cy <? double iy);
    [|exists c; split; [reflexivity|now left]].
  exists self. split; [reflexivity|]. right. repeat split.
  exists (VObj a), (VObj ca). repeat split; trivial.
  simpl. unfold compare_with. now rewrite E.
Qed.

Lemma same_area_trans (x y z : Beam number) :
  same_area x y -> same_area y z -> same_area x z.
Proof.
  intros (a & b & Ha & Hb & E) (b' & c & Hb' & Hc & E').
  rewrite Hb in Hb'. inversion Hb'. subst b'.
  exists a, c. repeat split; trivial.
  destruct a as [|a], b as [|b], c as [|c]; simpl in *; try discriminate; trivial.
  unfold compare_with in *. injection E as E1. injection E' as E2.
  f_equal. exact (eqb_trans _ _ _ E1 E2).
Qed.

(** *** The fold *)

Section Fold64.

Variable loading : value number.

Lemma for_each64_keeps_area (beams : list (Beam number)) :
  (forall b, In b beams -> regular loading b) ->
  forall c, regular loading c -> sufficient c loading ->
  exists b,
    for_each beams
      (fun candidate incumbent => get_new_best_beam candidate loading incumbent)
      (Some c) = Ok (Some b) /\
    (b = c \/ In b beams) /\ sufficient b loading /\ same_area b c.
Proof.
  induction beams as [|x beams IH]; intros Hreg c Hc Hsuf; simpl.
  - exists c. split; [reflexivity|]. split; [now left|].
    split; [exact Hsuf|exact (same_area_refl loading c Hc)].
  - destruct (get_new_best_beam_step64 loading x c (Hreg x (or_introl eq_refl)) Hc)
      as (b1 & -> & Hb1). cbn [bind].
    assert (H1 : regular loading b1 /\ sufficient b1 loading /\ same_area b1 c /\
                 (b1 = c \/ b1 = x)).
    { destruct Hb1 as [->|(-> & Hs & Ha)].
      - split; [exact Hc|]. split; [exact Hsuf|].
        split; [exact (same_area_refl loading c Hc)|now left].
      - split; [apply Hreg; now left|]. split; [exact Hs|].
        split; [exact Ha|now right]. }
    destruct H1 as (Hr1 & Hs1 & Ha1 & Hfrom1).
    destruct (IH (fun b Hb => Hreg b (or_intror Hb)) b1 Hr1 Hs1)
      as (b & -> & Hfrom & Hs & Ha).
    exists b. split; [reflexivity|]. split; [|split; [assumption|]].
    + destruct Hfrom as [->|Hin]; [|auto].
      destruct Hfrom1 as [->| ->]; auto.
    + exact (same_area_trans _ _ _ Ha Ha1).
Qed.

Lemma reduce_best_first_area64 (beams : list (Beam number)) :
  (forall b, In b beams -> regular loading b) ->
  first_area_outcome loading beams (reduce_best loading beams).
Proof.
  unfold first_area_outcome, reduce_best, first_sufficient.
  induction beams as [|x beams IH]; intros Hreg; simpl.
  - exists None. auto.
  - rewrite (get_new_best_beam_first64 loading x (Hreg x (or_introl eq_refl))).
    cbn [bind].
    destruct (is_sufficient_true loading x) eqn:Hx.
    + apply is_sufficient_true_spec64 in Hx.
      destruct (for_each64_keeps_area beams (fun b Hb => Hreg b (or_intror Hb)) x
                  (Hreg x (or_introl eq_refl)) Hx)
        as (b & -> & Hfrom & Hsuf & Hsame).
      exists (Some b). split; [reflexivity|]. exists b.
      repeat split; trivial. destruct Hfrom as [->|Hin]; auto.
    + destruct (IH (fun b Hb => Hreg b (or_intror Hb))) as (r & -> & Hr).
      exists r. split; [reflexivity|].
      destruct (find (is_sufficient_true loading) beams) as [f|]; [|assumption].
      destruct Hr as (b & -> & Hin & Hsuf & Hsame). exists b. auto.
Qed.

End Fold64.

(** *** The beams of the searches *)

Ltac break_if :=
  repeat match goal with
  | |- context [match ?c with true => _ | false => _ end] => destruct c
  end.

(** A beam with numpy section properties and the configured length:
    its check returns, whatever the material. *)
Lemma tried_beam_checks (self : Beam number) (a ix iy : float) :
  area self = Ok (np a) ->
  second_moment_of_area_xx self = Ok (np ix) ->
  second_moment_of_area_yy self = Ok (np iy) ->
  length self = Ok Part2.length ->
  exists s, is_sufficient self Part2.loading = Ok s.
Proof.
  intros Ha Hx Hy Hl.
  unfold is_sufficient, get_strain, squash_load, buckling_load, py_min.
  rewrite Ha, Hx, Hy, Hl.
  destruct (material self) as [n [|[ys|ys]] [|[md|md]] [|[el|el]] d p e];
    vm_compute; break_if; eauto.
Qed.

Lemma tried_beam_regular (self : Beam number) (a ix iy : float) :
  area self = Ok (np a) -> (a =? a) = true ->
  second_moment_of_area_xx self = Ok (np ix) ->
  second_moment_of_area_yy self = Ok (np iy) ->
  length self = Ok Part2.length ->
  regular Part2.loading self.
Proof.
  intros Ha Na Hx Hy Hl. split; [exact (tried_beam_checks self a ix iy Ha Hx Hy Hl)|].
  now exists (NpFloat64 a), (NpFloat64 ix), (NpFloat64 iy).
Qed.

Lemma tried_beams_regular (material : Material number) (beam : Beam number) :
  In beam (I_beams_tried material) \/ In beam (RHS_beams_tried material) \/
  In beam (CHS_beams_tried material) ->
  regular Part2.loading beam.
Proof.
  unfold I_beams_tried, RHS_beams_tried, CHS_beams_tried.
  intros [H|[H|H]].
  - apply in_flat_map in H as (b & Hb & H). apply in_flat_map in H as (h & Hh & H).
    apply in_flat_map in H as (tw & Htw & H). apply in_map_iff in H as (tf & <- & Htf).
    apply values_enumerates in Hb, Hh, Htw, Htf.
    destruct (I_area_positive b h tw tf Hb Hh Htw Htf) as [Hp _].
    eapply (tried_beam_regular _ (I_area b h tw tf));
      [reflexivity|exact (eqb_refl_of_ltb _ _ Hp)|reflexivity|reflexivity|reflexivity].
  - apply in_flat_map in H as (b & Hb & H). apply in_flat_map in H as (h & Hh & H).
    apply in_map_iff in H as (t & <- & Ht).
    apply values_enumerates in Hb, Hh, Ht.
    pose proof (over_RHS_ranges_spec _ b h t RHS_areas_in_bounds Hb Hh Ht) as Hp.
    unfold RHS_area_in_bounds in Hp.
    eapply (tried_beam_regular _ (RHS_area b h t));
      [reflexivity| |reflexivity|reflexivity|reflexivity].
    apply orb_prop in Hp as [Hp|Hp]; [exact (eqb_refl_of_ltb _ _ Hp)|].
    apply andb_prop in Hp as [Hp _]. apply andb_prop in Hp as [Hp _].
    apply andb_prop in Hp as [Hp _]. exact (eqb_refl_of_eqb _ _ Hp).
  - apply in_flat_map in H as (r & Hr & H). apply in_map_iff in H as (t & <- & Ht).
    apply values_enumerates in Hr, Ht.
    pose proof (over_CHS_ranges_spec _ r t CHS_all_in_bounds Hr Ht) as Hp.
    unfold CHS_in_bounds in Hp.
    apply andb_prop in Hp as [Hp _]. apply andb_prop in Hp as [_ Hp].
    eapply (tried_beam_regular _ (CHS_area r t));
      [reflexivity|exact (eqb_refl_of_ltb _ _ Hp)|reflexivity|reflexivity|reflexivity].
Qed.

(** X6.  In binary64, whatever the material, each search returns: no
    beam if none of the beams it builds is sufficient under the
    configured load, and otherwise a sufficient beam among them whose
    area equals the area of the first sufficient beam in the order of
    the loops.  A beam of strictly smaller area met later is never
    adopted. *)
Theorem searches_keep_the_first_area (material : Material number) :
  first_area_outcome Part2.loading (I_beams_tried material)
    (Part2.get_best_I_beam material) /\
  first_area_outcome Part2.loading (RHS_beams_tried material)
    (Part2.get_best_RHS_beam material) /\
  first_area_outcome Part2.loading (CHS_beams_tried material)
    (Part2.get_best_CHS_beam material).
Proof.
  destruct (searches_as_reductions material) as (-> & -> & ->).
  split; [|split]; apply reduce_best_first_area64; intros b Hb;
    apply (tried_beams_regular material);
    [left | right; left | right; right]; exact Hb.
Qed.

End Searches64.
